(** * send-reminders.js: the reminder job, embedded and verified

    The script reads date records and subscribers from a document store,
    computes which dates fall within a look-ahead window and mails a digest
    to every subscriber.  This file embeds the script's functions
    ([daysUntilFixed], [daysUntil], [buildAlerts],
    [buildAlertsForSubscriber], [formatAlertText], [sendEmailViaREST],
    [main]) together with the fragment of the language's built-ins they
    call, and proves the properties of the specification about them.

    The source holds two revisions of the script.  The earlier one has
    the broadcast builder [buildAlerts]; the later one has
    [buildAlertsForSubscriber] and the loop of [main] that builds the
    alerts of each subscriber.  The date helpers, [formatAlertText] and
    [sendEmailViaREST] are the same in both; [main] is the later one's.

    Modelling decisions, fixed once here:
    - a JavaScript number is [NaN] or an integer ([number]); the script
      only produces such values from well-formed date fields;
    - strings are sequences of 8-bit characters; [toLowerCase] folds the
      letters A-Z, which is what the language does on strings of ASCII
      characters, and the properties that depend on it are stated for
      such strings ([isAscii]);
    - a [Date] object is its time value (milliseconds since the epoch, or
      [NaN] for an invalid date), computed with the ECMAScript day and
      year algorithms; the local time zone is given by its offsets from
      UTC ([LocalTZA]), which may change over time (daylight saving);
    - [main] and the builders are given the clock of one instant; module
      [Timed] gives them a clock that is read anew at every call of
      [todayMidnight], and shows the two to agree while a run stays on
      one local day;
    - console output is not modelled; the email provider, the pacing
      delay, and the process exit status are. *)

From Stdlib Require Import ZArith List String Ascii Bool Lia.
From Stdlib Require Import Sorted Permutation DecimalString.
Import ListNotations.

Local Open Scope string_scope.
Local Open Scope list_scope.
Local Open Scope Z_scope.

Infix "^^" := String.append (at level 60, right associativity).

(** ** Built-ins of the language *)

Module JS.

(** Numbers as they occur in the script: an integer or [NaN]. *)
Inductive number : Type :=
| NaN
| Num (z : Z).

Definition num_add (a b : number) : number :=
  match a, b with
  | Num x, Num y => Num (x + y)
  | _, _ => NaN
  end.

Definition num_sub (a b : number) : number :=
  match a, b with
  | Num x, Num y => Num (x - y)
  | _, _ => NaN
  end.

(** [a < b] and [a <= b]: every comparison with [NaN] is false. *)
Definition num_lt (a b : number) : bool :=
  match a, b with
  | Num x, Num y => x <? y
  | _, _ => false
  end.

Definition num_le (a b : number) : bool :=
  match a, b with
  | Num x, Num y => x <=? y
  | _, _ => false
  end.

(** [Math.round(a / k)] for a positive integer [k]: the nearest integer,
    a half rounding towards plus infinity. *)
Definition Math_round_div (a : number) (k : Z) : number :=
  match a with
  | Num x => Num ((2 * x + k) / (2 * k))
  | NaN => NaN
  end.

(** Errors a call can raise. *)
Inductive error : Type :=
| TypeError (msg : string)
| Error (msg : string).

Inductive result (A : Type) : Type :=
| Ok (a : A)
| Throw (e : error).
Arguments Ok {A} a.
Arguments Throw {A} e.

(** Truthiness of a property that holds a string or is absent. *)
Definition truthy (v : option string) : bool :=
  match v with
  | Some (String _ _) => true
  | _ => false
  end.

(** [String.prototype.toLowerCase] on strings of ASCII characters, where
    it folds the letters A-Z and nothing else.  (On other characters the
    language folds every cased letter; here they are left alone.) *)
Definition lower_ascii (ch : ascii) : ascii :=
  let n := nat_of_ascii ch in
  if (Nat.leb 65 n && Nat.leb n 90)%bool then ascii_of_nat (n + 32) else ch.

Fixpoint toLowerCase (s : string) : string :=
  match s with
  | EmptyString => EmptyString
  | String ch rest => String (lower_ascii ch) (toLowerCase rest)
  end.

(** [s.split(sep)] for a one-character separator. *)
Fixpoint split (sep : ascii) (s : string) : list string :=
  match s with
  | EmptyString => [EmptyString]
  | String ch rest =>
      if Ascii.eqb ch sep then EmptyString :: split sep rest
      else match split sep rest with
           | [] => [String ch EmptyString]
           | p :: ps => String ch p :: ps
           end
  end.

(** [xs.join(sep)]. *)
Fixpoint join (sep : string) (xs : list string) : string :=
  match xs with
  | [] => EmptyString
  | [x] => x
  | x :: rest => x ^^ sep ^^ join sep rest
  end.

(** White space that [Number] strips from both ends of a string. *)
Definition is_space (ch : ascii) : bool :=
  let n := nat_of_ascii ch in
  (Nat.leb 9 n && Nat.leb n 13 || Nat.eqb n 32)%bool.

Fixpoint trim_start (s : string) : string :=
  match s with
  | String ch rest => if is_space ch then trim_start rest else s
  | EmptyString => EmptyString
  end.

Fixpoint trim_end (s : string) : string :=
  match s with
  | EmptyString => EmptyString
  | String ch rest =>
      match trim_end rest with
      | EmptyString => if is_space ch then EmptyString else String ch EmptyString
      | rest' => String ch rest'
      end
  end.

Definition digit_value (ch : ascii) : option Z :=
  let n := nat_of_ascii ch in
  if (Nat.leb 48 n && Nat.leb n 57)%bool then Some (Z.of_nat n - 48) else None.

Fixpoint digits_value (acc : Z) (s : string) : option Z :=
  match s with
  | EmptyString => Some acc
  | String ch rest =>
      match digit_value ch with
      | Some v => digits_value (10 * acc + v) rest
      | None => None
      end
  end.

Definition unsigned_value (s : string) : number :=
  match s with
  | EmptyString => NaN
  | _ => match digits_value 0 s with
         | Some v => Num v
         | None => NaN
         end
  end.

(** [Number(s)] on a string: surrounding (ASCII) white space is dropped,
    the empty string is 0, an optionally signed run of decimal digits is
    its value, and anything else is [NaN].  This is what the language
    does on runs of decimal digits and on strings that hold a character
    no numeral contains ([hasForeignChar]); the properties that depend on
    the value are stated for such fields.  (Fractions, exponents, radix
    prefixes and [Infinity] are numbers in the language and are read as
    [NaN] here.) *)
Definition Number_ (s : string) : number :=
  match trim_end (trim_start s) with
  | EmptyString => Num 0
  | String "+" rest => unsigned_value rest
  | String "-" rest => num_sub (Num 0) (unsigned_value rest)
  | body => unsigned_value body
  end.

(** [String(n)] for an integer. *)
Definition toString (z : Z) : string :=
  NilZero.string_of_int (Z.to_int z).

(** [xs.sort(comparefn)]: the sort is stable, and with a consistent
    [comparefn] its result does not depend on the algorithm; insertion
    from the right is used here.  An element goes in front of the first
    one it does not compare greater than. *)
Section Sort.
Context {A : Type} (comparefn : A -> A -> Z).

Fixpoint sort_insert (x : A) (l : list A) : list A :=
  match l with
  | [] => [x]
  | y :: l' =>
      if comparefn x y <=? 0 then x :: y :: l'
      else y :: sort_insert x l'
  end.

Fixpoint sort (l : list A) : list A :=
  match l with
  | [] => []
  | x :: l' => sort_insert x (sort l')
  end.
End Sort.

End JS.
Import JS.

(** ** Dates: the ECMAScript time-value algorithms *)

Module EcmaDate.

Definition msPerDay : Z := 86400000.

Definition Day (t : Z) : Z := t / msPerDay.

Definition DaysInYear (y : Z) : Z :=
  if negb (y mod 4 =? 0) then 365
  else if negb (y mod 100 =? 0) then 366
  else if negb (y mod 400 =? 0) then 365
  else 366.

Definition DayFromYear (y : Z) : Z :=
  365 * (y - 1970) + (y - 1969) / 4 - (y - 1901) / 100 + (y - 1601) / 400.

Definition TimeFromYear (y : Z) : Z := msPerDay * DayFromYear y.

(** The year of a day number: the largest [y] with
    [DayFromYear y <= d].  The mean year length gives a first guess that
    is off by at most one. *)
Definition YearFromDay (d : Z) : Z :=
  let y := 1970 + (400 * d) / 146097 in
  if d <? DayFromYear y then y - 1
  else if DayFromYear (y + 1) <=? d then y + 1
  else y.

Definition YearFromTime (t : Z) : Z := YearFromDay (Day t).

Definition InLeapYear (t : Z) : Z :=
  if DaysInYear (YearFromTime t) =? 366 then 1 else 0.

Definition DayWithinYear (t : Z) : Z :=
  Day t - DayFromYear (YearFromTime t).

(** First day-within-year of month [m] (0 = January), [leap] being 0 or
    1. *)
Definition monthStart (m leap : Z) : Z :=
  match m with
  | 0 => 0
  | 1 => 31
  | 2 => 59 + leap
  | 3 => 90 + leap
  | 4 => 120 + leap
  | 5 => 151 + leap
  | 6 => 181 + leap
  | 7 => 212 + leap
  | 8 => 243 + leap
  | 9 => 273 + leap
  | 10 => 304 + leap
  | _ => 334 + leap
  end.

Definition MonthFromTime (t : Z) : Z :=
  let d := DayWithinYear t in
  let leap := InLeapYear t in
  if d <? 31 then 0
  else if d <? 59 + leap then 1
  else if d <? 90 + leap then 2
  else if d <? 120 + leap then 3
  else if d <? 151 + leap then 4
  else if d <? 181 + leap then 5
  else if d <? 212 + leap then 6
  else if d <? 243 + leap then 7
  else if d <? 273 + leap then 8
  else if d <? 304 + leap then 9
  else if d <? 334 + leap then 10
  else 11.

Definition DateFromTime (t : Z) : Z :=
  DayWithinYear t + 1 - monthStart (MonthFromTime t) (InLeapYear t).

(** [MakeDay(year, month, date)]: months outside 0..11 carry into the
    year, days outside the month carry into the neighbouring months. *)
Definition MakeDay (year month date : Z) : Z :=
  let ym := year + month / 12 in
  let mn := month mod 12 in
  let leap := if DaysInYear ym =? 366 then 1 else 0 in
  DayFromYear ym + monthStart mn leap + date - 1.

Definition MakeTime (hour min sec ms : Z) : Z :=
  hour * 3600000 + min * 60000 + sec * 1000 + ms.

Definition MakeDate (day time : Z) : Z := day * msPerDay + time.

Definition TimeClip (time : Z) : number :=
  if Z.abs time >? 8640000000000000 then NaN else Num time.

(** The clock of a run: the instant the script reads, and the local time
    zone.  [LocalTZA t true] is the offset of local time from UTC at the
    UTC instant [t]; [LocalTZA t false] is the offset that applies to the
    local time [t], a repeated or skipped local time taking the offset
    from before the transition.  All in milliseconds. *)
Record clock : Type := Clock {
  now : Z;
  LocalTZA : Z -> bool -> Z
}.

Section Local.
Variable c : clock.

Definition LocalTime (t : Z) : Z := t + LocalTZA c t true.
Definition UTC (t : Z) : Z := t - LocalTZA c t false.

(** [new Date()]. *)
Definition Date_now : number := Num (now c).

(** [d.setHours(h, m, s, ms)], returning the new time value. *)
Definition setHours (d : number) (h m s ms : Z) : number :=
  match d with
  | NaN => NaN
  | Num tv =>
      let t := LocalTime tv in
      TimeClip (UTC (MakeDate (Day t) (MakeTime h m s ms)))
  end.

Definition getFullYear (d : number) : number :=
  match d with
  | NaN => NaN
  | Num tv => Num (YearFromTime (LocalTime tv))
  end.

(** [d.getMonth()] and [d.getDate()], used to say what "today's month
    and day" are. *)
Definition getMonth (d : number) : number :=
  match d with
  | NaN => NaN
  | Num tv => Num (MonthFromTime (LocalTime tv))
  end.

Definition getDate (d : number) : number :=
  match d with
  | NaN => NaN
  | Num tv => Num (DateFromTime (LocalTime tv))
  end.

(** [new Date(year, month, date)]: local midnight of that day; a year
    from 0 to 99 means 1900 + year. *)
Definition Date_ymd (year month date : number) : number :=
  match year, month, date with
  | Num y, Num m, Num dt =>
      let yr := if (0 <=? y) && (y <=? 99) then 1900 + y else y in
      TimeClip (UTC (MakeDate (MakeDay yr m dt) (MakeTime 0 0 0 0)))
  | _, _, _ => NaN
  end.
End Local.

End EcmaDate.
Import EcmaDate.

(** ** The script *)

Module GlobalDate.
Record t : Type := mk { name : string; month : Z; day : Z }.
End GlobalDate.

Definition GLOBAL_DATES : list GlobalDate.t :=
  [ GlobalDate.mk "Valentine's Day" 2 14;
    GlobalDate.mk "International Women's Day" 3 8;
    GlobalDate.mk "Mother's Day" 5 11;
    GlobalDate.mk "Vietnamese Women's Day" 10 20;
    GlobalDate.mk "Christmas" 12 25 ].

Section DateHelpers.
Variable c : clock.

Definition todayMidnight : number :=
  setHours c (Date_now c) 0 0 0 0.

Definition daysUntilFixed (month day : Z) : number :=
  let t := todayMidnight in
  let d := Date_ymd c (getFullYear c t) (Num (month - 1)) (Num day) in
  let d := if num_lt d t
           then Date_ymd c (num_add (getFullYear c t) (Num 1))
                  (Num (month - 1)) (Num day)
           else d in
  Math_round_div (num_sub d t) 86400000.

Definition daysUntil (dateStr : string) : number :=
  let t := todayMidnight in
  let parts := map Number_ (split "-" dateStr) in
  let m := if (List.length parts =? 3)%nat then nth 1 parts NaN else nth 0 parts NaN in
  let d := if (List.length parts =? 3)%nat then nth 2 parts NaN else nth 1 parts NaN in
  let dt := Date_ymd c (getFullYear c t) (num_sub m (Num 1)) d in
  let dt := if num_lt dt t
            then Date_ymd c (num_add (getFullYear c t) (Num 1))
                   (num_sub m (Num 1)) d
            else dt in
  Math_round_div (num_sub dt t) 86400000.
End DateHelpers.

(** *** Records read from the store, and alerts *)

Module Custom.
Record t : Type := mk { label : string; date : string }.
End Custom.

(** A person: [birthday], [anniversary], [custom] and [ownerEmail] may be
    absent from the stored document. *)
Module Person.
Record t : Type := mk {
  name : string;
  birthday : option string;
  anniversary : option string;
  custom : option (list Custom.t);
  ownerEmail : option string
}.
End Person.

Module Subscriber.
Record t : Type := mk { name : string; email : string }.
End Subscriber.

Module Alert.
Record t : Type := mk { label : string; days : Z }.
End Alert.

(** An entry of the array [all]: a label and the date string it stands
    for. *)
Module Dated.
Record t : Type := mk { label : string; val : string }.
End Dated.

(** [arr.push(x)]. *)
Definition push {A : Type} (arr : list A) (x : A) : list A := arr ++ [x].

(** *** Building alerts *)

Section Builder.
Variable c : clock.
Variable maxDays : Z.

(** [if (d <= maxDays) alerts.push({ label, days: d })]: the test is false
    for [NaN], so an alert always carries an integer. *)
Definition pushIfDue (alerts : list Alert.t) (label : string) (d : number)
  : list Alert.t :=
  match d with
  | Num n => if num_le d (Num maxDays) then push alerts (Alert.mk label n) else alerts
  | NaN => alerts
  end.

(** The loop over [GLOBAL_DATES]. *)
Definition forGlobals (alerts : list Alert.t) : list Alert.t :=
  fold_left
    (fun alerts g =>
       let d := daysUntilFixed c (GlobalDate.month g) (GlobalDate.day g) in
       pushIfDue alerts (GlobalDate.name g) d)
    GLOBAL_DATES alerts.

(** The array [all] of one person. *)
Definition datesOf (p : Person.t) : list Dated.t :=
  let all := [] in
  let all :=
    match Person.birthday p with
    | Some (String _ _ as v) => push all (Dated.mk (Person.name p ^^ "'s Birthday") v)
    | _ => all
    end in
  let all :=
    match Person.anniversary p with
    | Some (String _ _ as v) => push all (Dated.mk (Person.name p ^^ "'s Anniversary") v)
    | _ => all
    end in
  match Person.custom p with
  | Some cs =>
      fold_left
        (fun all cu =>
           push all (Dated.mk (Custom.label cu ^^ " (" ^^ Person.name p ^^ ")") (Custom.date cu)))
        cs all
  | None => all
  end.

(** The loop [for (const dt of all)] of one person. *)
Definition forDates (p : Person.t) (alerts : list Alert.t) : list Alert.t :=
  fold_left
    (fun alerts dt =>
       let d := daysUntil c (Dated.val dt) in
       pushIfDue alerts (Dated.label dt) d)
    (datesOf p) alerts.

Definition byDays (a b : Alert.t) : Z := Alert.days a - Alert.days b.

(** The broadcast variant. *)
Definition buildAlerts (people : list Person.t) : list Alert.t :=
  let alerts := [] in
  let alerts := forGlobals alerts in
  let alerts := fold_left (fun alerts p => forDates p alerts) people alerts in
  sort byDays alerts.

(** The test that guards [continue]:
    [p.ownerEmail && p.ownerEmail.toLowerCase() !== subscriberEmail.toLowerCase()].
    The right operand is only evaluated for a non-empty [ownerEmail], and
    calls a method on [subscriberEmail], which fails on [null]. *)
Definition skipsPerson (p : Person.t) (subscriberEmail : option string)
  : result bool :=
  match Person.ownerEmail p with
  | Some (String _ _ as owner) =>
      match subscriberEmail with
      | Some e => Ok (negb (String.eqb (toLowerCase owner) (toLowerCase e)))
      | None => Throw (TypeError "Cannot read properties of null (reading 'toLowerCase')")
      end
  | _ => Ok false
  end.

(** The loop over [people] of the ownership-scoped variant. *)
Fixpoint forPeople (people : list Person.t) (subscriberEmail : option string)
  (alerts : list Alert.t) : result (list Alert.t) :=
  match people with
  | [] => Ok alerts
  | p :: rest =>
      match skipsPerson p subscriberEmail with
      | Throw e => Throw e
      | Ok true => forPeople rest subscriberEmail alerts
      | Ok false => forPeople rest subscriberEmail (forDates p alerts)
      end
  end.

(** The ownership-scoped variant; [subscriberEmail] is a string or
    [null]. *)
Definition buildAlertsForSubscriber (people : list Person.t)
  (subscriberEmail : option string) : result (list Alert.t) :=
  let alerts := [] in
  let alerts := forGlobals alerts in
  match forPeople people subscriberEmail alerts with
  | Throw e => Throw e
  | Ok alerts => Ok (sort byDays alerts)
  end.

End Builder.

(** *** Formatting *)

Definition newline : string := String (ascii_of_nat 10) EmptyString.

Definition alertLine (a : Alert.t) : string :=
  let w :=
    if Alert.days a =? 0 then "TODAY"
    else if Alert.days a <=? 3 then "In " ^^ toString (Alert.days a) ^^ " day(s)"
    else "In " ^^ toString (Alert.days a) ^^ " days" in
  w ^^ " -- " ^^ Alert.label a.

Definition formatAlertText (alerts : list Alert.t) : string :=
  if (List.length alerts =? 0)%nat then ""
  else join newline (map alertLine alerts).

(** *** The email provider and the orchestrator *)

Module EmailConfig.
Record t : Type := mk {
  serviceId : option string;
  templateId : option string;
  pubKey : option string;
  sender : option string
}.
End EmailConfig.

(** The JSON body posted to the provider. *)
Module Payload.
Record t : Type := mk {
  service_id : option string;
  template_id : option string;
  user_id : option string;
  accessToken : option string;
  to_email : string;
  from_name : string;
  event_list : string
}.
End Payload.

(** What [fetch] yields: a response with a status and a body, or a
    rejection (the request never completed). *)
Inductive fetched : Type :=
| Responded (status : Z) (body : string)
| Rejected (e : error).

(** [response.ok]: a status from 200 to 299. *)
Definition response_ok (status : Z) : bool := (200 <=? status) && (status <=? 299).

(** What a run does to the outside world, in order. *)
Inductive event : Type :=
| Fetch (req : Payload.t) (res : fetched)
| Sleep (ms : Z).

Definition trace : Type := list event.

(** The outside world of a run: the clock, the secret of the environment,
    the three reads of the store (each may fail), and the provider, whose
    answer may depend on everything that happened before. *)
Record world : Type := World {
  w_clock : clock;
  EMAILJS_PRIVATE_KEY : option string;
  emailConfig : result (option EmailConfig.t);
  wives : result (list Person.t);
  subscribers : result (list Subscriber.t);
  provider : trace -> Payload.t -> fetched
}.

(** Computations of the script: they extend the trace and return or
    throw. *)
Definition io (A : Type) : Type := trace -> result A * trace.

Definition ret {A : Type} (a : A) : io A := fun tr => (Ok a, tr).

Definition throw {A : Type} (e : error) : io A := fun tr => (Throw e, tr).

Definition bind {A B : Type} (m : io A) (k : A -> io B) : io B :=
  fun tr =>
    match m tr with
    | (Ok a, tr') => k a tr'
    | (Throw e, tr') => (Throw e, tr')
    end.

Definition tryCatch {A : Type} (m : io A) (handler : error -> io A) : io A :=
  fun tr =>
    match m tr with
    | (Ok a, tr') => (Ok a, tr')
    | (Throw e, tr') => handler e tr'
    end.

(** A synchronous call that may throw, and an awaited read of the
    store. *)
Definition lift {A : Type} (r : result A) : io A := fun tr => (r, tr).

Notation "x <- m ;; k" := (bind m (fun x => k))
  (at level 61, m at next level, right associativity).
Notation "m ;;; k" := (bind m (fun _ => k))
  (at level 61, right associativity).

Section Orchestrator.
Variable w : world.

(** [await fetch(url, { method: 'POST', body })]. *)
Definition fetch (req : Payload.t) : io fetched :=
  fun tr => let res := provider w tr req in (Ok res, push tr (Fetch req res)).

(** [await new Promise(r => setTimeout(r, ms))]. *)
Definition sleep (ms : Z) : io unit :=
  fun tr => (Ok tt, push tr (Sleep ms)).

Definition sendEmailViaREST (toEmail eventListText : string) (cfg : EmailConfig.t)
  : io unit :=
  response <- fetch
    (Payload.mk (EmailConfig.serviceId cfg) (EmailConfig.templateId cfg)
       (EmailConfig.pubKey cfg) (EMAILJS_PRIVATE_KEY w) toEmail
       (match EmailConfig.sender cfg with
        | Some (String _ _ as s) => s
        | _ => "Date Reminder"
        end)
       eventListText) ;;
  match response with
  | Rejected e => throw e
  | Responded status body =>
      if negb (response_ok status)
      then throw (Error ("EmailJS " ^^ toString status ^^ ": " ^^ body))
      else ret tt
  end.

(** The counters [ok], [fail] and [skipped] of [main]. *)
Record counters : Type := Counters { ok : Z; fail : Z; skipped : Z }.

(** The loop [for (const sub of subscribers)] of [main]. *)
Fixpoint forSubscribers (cfg : EmailConfig.t) (people : list Person.t)
  (subs : list Subscriber.t) (n : counters) : io counters :=
  match subs with
  | [] => ret n
  | sub :: rest =>
      alerts <- lift (buildAlertsForSubscriber (w_clock w) 7 people
                        (Some (Subscriber.email sub))) ;;
      if (List.length alerts =? 0)%nat
      then forSubscribers cfg people rest
             (Counters (ok n) (fail n) (skipped n + 1))
      else
        let alertText := formatAlertText alerts in
        n' <- tryCatch
                (sendEmailViaREST (Subscriber.email sub) alertText cfg ;;;
                 let n1 := Counters (ok n + 1) (fail n) (skipped n) in
                 sleep 1100 ;;;
                 ret n1)
                (fun _ => ret (Counters (ok n) (fail n + 1) (skipped n))) ;;
        forSubscribers cfg people rest n'
  end.

(** How [main] ends when it does not throw: by returning, or through
    [process.exit]. *)
Inductive completion : Type :=
| Returned
| Exited (code : Z).

Definition main : io completion :=
  cfgSnap <- lift (emailConfig w) ;;
  match cfgSnap with
  | None => ret Returned
  | Some cfg =>
      if negb (truthy (EmailConfig.serviceId cfg))
         || negb (truthy (EmailConfig.templateId cfg))
         || negb (truthy (EmailConfig.pubKey cfg))
      then ret Returned
      else
        people <- lift (wives w) ;;
        subs <- lift (subscribers w) ;;
        if (List.length subs =? 0)%nat then ret Returned
        else
          n <- forSubscribers cfg people subs (Counters 0 0 0) ;;
          if fail n >? 0 then ret (Exited 1) else ret Returned
  end.

(** The whole script: [main().catch(e => process.exit(1))], from an empty
    trace.  A run that returns normally ends with status 0. *)
Definition run : result completion * trace := main [].

Definition exitStatus : Z :=
  match fst run with
  | Ok Returned => 0
  | Ok (Exited code) => code
  | Throw _ => 1
  end.

End Orchestrator.

(** Observations on a trace. *)
Definition fetchFailed (res : fetched) : bool :=
  match res with
  | Responded status _ => negb (response_ok status)
  | Rejected _ => true
  end.

Definition isFailedSend (ev : event) : bool :=
  match ev with
  | Fetch _ res => fetchFailed res
  | Sleep _ => false
  end.

Definition isSend (ev : event) : bool :=
  match ev with
  | Fetch _ _ => true
  | Sleep _ => false
  end.

(** The requests sent to the provider, in order. *)
Definition requestsOf (tr : trace) : list Payload.t :=
  flat_map (fun ev => match ev with Fetch req _ => [req] | Sleep _ => [] end) tr.

(** *** The earlier revision of the orchestrator

    In the earlier revision [main] builds one list of alerts for everyone
    with [buildAlerts], returns when it is empty, and only then reads the
    subscribers and sends the same text to each of them.  It has two
    counters and never skips a subscriber. *)

Module Broadcast.
Section Orchestrator.
Variable w : world.

Record counters : Type := Counters { ok : Z; fail : Z }.

(** The loop [for (const sub of subscribers)]. *)
Fixpoint forSubscribers (cfg : EmailConfig.t) (alertText : string)
  (subs : list Subscriber.t) (n : counters) : io counters :=
  match subs with
  | [] => ret n
  | sub :: rest =>
      n' <- tryCatch
              (sendEmailViaREST w (Subscriber.email sub) alertText cfg ;;;
               let n1 := Counters (ok n + 1) (fail n) in
               sleep 1100 ;;;
               ret n1)
              (fun _ => ret (Counters (ok n) (fail n + 1))) ;;
      forSubscribers cfg alertText rest n'
  end.

Definition main : io completion :=
  cfgSnap <- lift (emailConfig w) ;;
  match cfgSnap with
  | None => ret Returned
  | Some cfg =>
      if negb (truthy (EmailConfig.serviceId cfg))
         || negb (truthy (EmailConfig.templateId cfg))
         || negb (truthy (EmailConfig.pubKey cfg))
      then ret Returned
      else
        people <- lift (wives w) ;;
        let alerts := buildAlerts (w_clock w) 7 people in
        if (List.length alerts =? 0)%nat then ret Returned
        else
          let alertText := formatAlertText alerts in
          subs <- lift (subscribers w) ;;
          if (List.length subs =? 0)%nat then ret Returned
          else
            n <- forSubscribers cfg alertText subs (Counters 0 0) ;;
            if fail n >? 0 then ret (Exited 1) else ret Returned
  end.

Definition run : result completion * trace := main [].

Definition exitStatus : Z :=
  match fst run with
  | Ok Returned => 0
  | Ok (Exited code) => code
  | Throw _ => 1
  end.

End Orchestrator.
End Broadcast.

(** *** The clock read at every call

    [todayMidnight] reads the clock each time it is called, so a run
    reads it once for every holiday and every date it looks at, and the
    later revision does so again for every subscriber, after the sends
    and delays before.  Here the builders and the two revisions of [main]
    are given a series of readings of the clock, in one zone: the k-th
    call of [todayMidnight] in a run gets the k-th reading. *)

Module Timed.

(** The zone of the process and the instant of every reading. *)
Record clocks : Type := Clocks {
  zone : Z -> bool -> Z;
  instantAt : nat -> Z
}.

Definition reading (cs : clocks) (k : nat) : clock := Clock (instantAt cs k) (zone cs).

(** The builders; each threads the number of readings made so far. *)
Section Builder.
Variable cs : clocks.
Variable maxDays : Z.

Definition forGlobals (alerts : list Alert.t) (k : nat) : list Alert.t * nat :=
  fold_left
    (fun st g =>
       let d := daysUntilFixed (reading cs (snd st)) (GlobalDate.month g) (GlobalDate.day g) in
       (pushIfDue maxDays (fst st) (GlobalDate.name g) d, S (snd st)))
    GLOBAL_DATES (alerts, k).

Definition forDates (p : Person.t) (alerts : list Alert.t) (k : nat)
  : list Alert.t * nat :=
  fold_left
    (fun st dt =>
       let d := daysUntil (reading cs (snd st)) (Dated.val dt) in
       (pushIfDue maxDays (fst st) (Dated.label dt) d, S (snd st)))
    (datesOf p) (alerts, k).

Definition buildAlerts (people : list Person.t) (k : nat) : list Alert.t * nat :=
  let alerts := [] in
  let st := forGlobals alerts k in
  let st := fold_left (fun st p => forDates p (fst st) (snd st)) people st in
  (sort byDays (fst st), snd st).

Fixpoint forPeople (people : list Person.t) (subscriberEmail : option string)
  (alerts : list Alert.t) (k : nat) : result (list Alert.t) * nat :=
  match people with
  | [] => (Ok alerts, k)
  | p :: rest =>
      match skipsPerson p subscriberEmail with
      | Throw e => (Throw e, k)
      | Ok true => forPeople rest subscriberEmail alerts k
      | Ok false =>
          let st := forDates p alerts k in
          forPeople rest subscriberEmail (fst st) (snd st)
      end
  end.

Definition buildAlertsForSubscriber (people : list Person.t)
  (subscriberEmail : option string) (k : nat) : result (list Alert.t) * nat :=
  let alerts := [] in
  let st := forGlobals alerts k in
  match forPeople people subscriberEmail (fst st) (snd st) with
  | (Throw e, k') => (Throw e, k')
  | (Ok alerts, k') => (Ok (sort byDays alerts), k')
  end.
End Builder.

(** The later revision of [main], and the earlier one ([mainBroadcast]),
    which builds the alerts once, before the loop. *)
Section Orchestrator.
Variable cs : clocks.
Variable w : world.

Fixpoint forSubscribers (cfg : EmailConfig.t) (people : list Person.t)
  (subs : list Subscriber.t) (n : counters) (tr : trace) (k : nat)
  : result counters * trace :=
  match subs with
  | [] => (Ok n, tr)
  | sub :: rest =>
      match buildAlertsForSubscriber cs 7 people (Some (Subscriber.email sub)) k with
      | (Throw e, _) => (Throw e, tr)
      | (Ok alerts, k') =>
          if (List.length alerts =? 0)%nat
          then forSubscribers cfg people rest
                 (Counters (ok n) (fail n) (skipped n + 1)) tr k'
          else
            let alertText := formatAlertText alerts in
            match tryCatch
                    (sendEmailViaREST w (Subscriber.email sub) alertText cfg ;;;
                     let n1 := Counters (ok n + 1) (fail n) (skipped n) in
                     sleep 1100 ;;;
                     ret n1)
                    (fun _ => ret (Counters (ok n) (fail n + 1) (skipped n))) tr with
            | (Ok n', tr') => forSubscribers cfg people rest n' tr' k'
            | (Throw e, tr') => (Throw e, tr')
            end
      end
  end.

Definition main : io completion :=
  cfgSnap <- lift (emailConfig w) ;;
  match cfgSnap with
  | None => ret Returned
  | Some cfg =>
      if negb (truthy (EmailConfig.serviceId cfg))
         || negb (truthy (EmailConfig.templateId cfg))
         || negb (truthy (EmailConfig.pubKey cfg))
      then ret Returned
      else
        people <- lift (wives w) ;;
        subs <- lift (subscribers w) ;;
        if (List.length subs =? 0)%nat then ret Returned
        else
          n <- (fun tr => forSubscribers cfg people subs (Counters 0 0 0) tr 0%nat) ;;
          if fail n >? 0 then ret (Exited 1) else ret Returned
  end.

Definition run : result completion * trace := main [].

Definition mainBroadcast : io completion :=
  cfgSnap <- lift (emailConfig w) ;;
  match cfgSnap with
  | None => ret Returned
  | Some cfg =>
      if negb (truthy (EmailConfig.serviceId cfg))
         || negb (truthy (EmailConfig.templateId cfg))
         || negb (truthy (EmailConfig.pubKey cfg))
      then ret Returned
      else
        people <- lift (wives w) ;;
        let alerts := fst (buildAlerts cs 7 people 0%nat) in
        if (List.length alerts =? 0)%nat then ret Returned
        else
          let alertText := formatAlertText alerts in
          subs <- lift (subscribers w) ;;
          if (List.length subs =? 0)%nat then ret Returned
          else
            n <- Broadcast.forSubscribers w cfg alertText subs (Broadcast.Counters 0 0) ;;
            if Broadcast.fail n >? 0 then ret (Exited 1) else ret Returned
  end.

Definition runBroadcast : result completion * trace := mainBroadcast [].

End Orchestrator.

(** Every reading of the clock is in the zone and on the local day of
    the clock [c0]. *)
Definition onDayOf (c0 : clock) (cs : clocks) : Prop :=
  zone cs = LocalTZA c0 /\
  forall k, Day (LocalTime (reading cs k) (instantAt cs k)) = Day (LocalTime c0 (now c0)).

(** The world with the clock [c0]. *)
Definition atClock (c0 : clock) (w : world) : world :=
  World c0 (EMAILJS_PRIVATE_KEY w) (emailConfig w) (wives w) (subscribers w)
    (provider w).

End Timed.

(** ** Vocabulary of the specification *)

(** A clock the job can meet: local time is not before 1970 and the
    instant leaves room for one more year below the largest time value;
    the offsets of the zone are at most a day, differ from one another by
    less than half a day, and a local time converted to UTC and back
    stays on its day (it moves, forward, only when it is skipped). *)
Definition clock_ok (c : clock) : Prop :=
  0 <= LocalTime c (now c) /\ now c <= 8000000000000000 /\
  (forall t isUTC, - msPerDay <= LocalTZA c t isUTC <= msPerDay) /\
  (forall x y, - 43200000 < LocalTZA c x false - LocalTZA c y false < 43200000) /\
  (forall x, 0 <= LocalTime c (UTC c x) - x < msPerDay).

(** Today's local day number and year. *)
Definition today (c : clock) : Z := Day (LocalTime c (now c)).

Definition thisYear (c : clock) : Z := YearFromDay (today c).

(** Day number of the next occurrence of a month and day: this year's if
    it has not passed, else next year's. *)
Definition nextOccurrence (c : clock) (month day : Z) : Z :=
  if MakeDay (thisYear c) (month - 1) day <? today c
  then MakeDay (thisYear c + 1) (month - 1) day
  else MakeDay (thisYear c) (month - 1) day.

(** A two-digit field of a date string, and strings without a hyphen. *)
Definition pad2 (n : Z) : string :=
  if n <? 10 then "0" ^^ toString n else toString n.

Fixpoint hyphenFree (s : string) : bool :=
  match s with
  | EmptyString => true
  | String ch rest => negb (Ascii.eqb ch "-") && hyphenFree rest
  end.

Section AlertVocabulary.
Variable c : clock.
Variable maxDays : Z.

(** The alert a dated event gives: one if it is due within the
    threshold, none otherwise. *)
Definition dueAlert (label : string) (d : number) : list Alert.t :=
  match d with
  | Num n => if n <=? maxDays then [Alert.mk label n] else []
  | NaN => []
  end.

Definition globalAlerts : list Alert.t :=
  flat_map
    (fun g =>
       dueAlert (GlobalDate.name g)
         (daysUntilFixed c (GlobalDate.month g) (GlobalDate.day g)))
    GLOBAL_DATES.

Definition personAlerts (p : Person.t) : list Alert.t :=
  flat_map (fun dt => dueAlert (Dated.label dt) (daysUntil c (Dated.val dt)))
    (datesOf p).
End AlertVocabulary.

(** A person has an owner when [ownerEmail] is a non-empty string. *)
Definition hasOwner (p : Person.t) : bool := truthy (Person.ownerEmail p).

(** Visibility of a person to a subscriber email: hidden exactly when the
    person has an owner whose lower-cased email differs from the
    lower-cased subscriber email. *)
Definition visibleTo (subscriberEmail : string) (p : Person.t) : bool :=
  match Person.ownerEmail p with
  | Some owner =>
      negb (hasOwner p && negb (String.eqb (toLowerCase owner) (toLowerCase subscriberEmail)))
  | None => true
  end.

(** Visibility as the specification words it, an absent (null) filter
    hiding no one. *)
Definition visibleUnder (subscriberEmail : option string) (p : Person.t) : bool :=
  match subscriberEmail with
  | Some e => visibleTo e p
  | None => true
  end.

Definition sameDays (k : Z) (a : Alert.t) : bool := Alert.days a =? k.

Definition daysOrdered (a b : Alert.t) : Prop := Alert.days a <= Alert.days b.

(** The urgency wording and the line of an alert as the specification
    gives them. *)
Definition urgency (days : Z) : string :=
  if days =? 0 then "TODAY"
  else if (1 <=? days) && (days <=? 3) then "In " ^^ toString days ^^ " day(s)"
  else "In " ^^ toString days ^^ " days".

Definition specLine (a : Alert.t) : string :=
  urgency (Alert.days a) ^^ " -- " ^^ Alert.label a.

(** The alerts a subscriber is due, and the request that carries them. *)
Definition alertsFor (w : world) (people : list Person.t) (sub : Subscriber.t)
  : list Alert.t :=
  sort byDays
    (globalAlerts (w_clock w) 7 ++
     flat_map (personAlerts (w_clock w) 7)
       (filter (visibleTo (Subscriber.email sub)) people)).

Definition hasAlerts (w : world) (people : list Person.t) (sub : Subscriber.t) : bool :=
  negb (List.length (alertsFor w people sub) =? 0)%nat.

Definition payloadFor (w : world) (cfg : EmailConfig.t) (people : list Person.t)
  (sub : Subscriber.t) : Payload.t :=
  Payload.mk (EmailConfig.serviceId cfg) (EmailConfig.templateId cfg)
    (EmailConfig.pubKey cfg) (EMAILJS_PRIVATE_KEY w) (Subscriber.email sub)
    (match EmailConfig.sender cfg with
     | Some (String _ _ as s) => s
     | _ => "Date Reminder"
     end)
    (formatAlertText (alertsFor w people sub)).

Definition configComplete (cfg : EmailConfig.t) : bool :=
  truthy (EmailConfig.serviceId cfg) && truthy (EmailConfig.templateId cfg)
  && truthy (EmailConfig.pubKey cfg).

(** The pacing the loop produces: a send that succeeded is followed at
    once by the delay of 1100 ms, a send that failed is followed by
    nothing, and there is no delay anywhere else. *)
Inductive paced : trace -> Prop :=
| paced_nil : paced []
| paced_sent req res tr :
    fetchFailed res = false -> paced tr -> paced (Fetch req res :: Sleep 1100 :: tr)
| paced_failed req res tr :
    fetchFailed res = true -> paced tr -> paced (Fetch req res :: tr).

(** Counting the sends of a trace that failed and that succeeded. *)
Definition failedSends (tr : trace) : Z :=
  Z.of_nat (List.length (filter isFailedSend tr)).

Definition goodSends (tr : trace) : Z :=
  Z.of_nat (List.length (filter (fun ev => isSend ev && negb (isFailedSend ev)) tr)).

(** No two sends follow one another without a delay in between. *)
Fixpoint sendsSpaced (tr : trace) : bool :=
  match tr with
  | [] => true
  | Fetch _ _ :: ((Fetch _ _ :: _) as rest) => false
  | _ :: rest => sendsSpaced rest
  end.

(** A sorted list that keeps, among alerts of equal [days], the order in
    which they were inserted. *)
Definition sortedStable (inserted result : list Alert.t) : Prop :=
  StronglySorted daysOrdered result /\
  forall k, filter (sameDays k) result = filter (sameDays k) inserted.

Definition listedBefore (g a : Alert.t) (l : list Alert.t) : Prop :=
  exists l1 l2 l3, l = l1 ++ g :: l2 ++ a :: l3.

(** A two-digit field reads back as its number and holds no hyphen. *)
Definition fieldChecked (n : nat) : bool :=
  hyphenFree (pad2 (Z.of_nat n)) &&
  match Number_ (pad2 (Z.of_nat n)) with
  | Num v => v =? Z.of_nat n
  | NaN => false
  end.

(** An alert that is due within a threshold. *)
Definition dueWithin (maxDays : Z) (a : Alert.t) : bool := Alert.days a <=? maxDays.

(** The characters a numeral of the language can hold, besides white
    space: digits, signs, the point, the exponent and radix letters, the
    hexadecimal digits and the letters of "Infinity". *)
Definition numeralChar (ch : ascii) : bool :=
  existsb (Ascii.eqb ch)
    (list_ascii_of_string "+-.0123456789abcdefABCDEFxXoOInity").

(** A visible ASCII character that no numeral holds: [Number] of a string
    with such a character is [NaN]. *)
Definition foreignChar (ch : ascii) : bool :=
  let n := nat_of_ascii ch in
  (Nat.leb 33 n && Nat.leb n 126 && negb (numeralChar ch))%bool.

Fixpoint hasForeignChar (s : string) : bool :=
  match s with
  | EmptyString => false
  | String ch rest => foreignChar ch || hasForeignChar rest
  end.

(** A field that is missing, or that cannot be a number. *)
Definition unreadable (field : option string) : bool :=
  match field with
  | None => true
  | Some f => hasForeignChar f
  end.

(** A date string whose month or day, as [daysUntil] reads them (fields
    1 and 2 of three, fields 0 and 1 otherwise), is missing or cannot be
    a number. *)
Definition notADate (s : string) : bool :=
  let parts := split "-" s in
  if (List.length parts =? 3)%nat
  then unreadable (nth_error parts 1) || unreadable (nth_error parts 2)
  else unreadable (nth_error parts 0) || unreadable (nth_error parts 1).

(** Strings of ASCII characters, and persons whose [ownerEmail], when
    there is one, is such a string. *)
Fixpoint isAscii (s : string) : bool :=
  match s with
  | EmptyString => true
  | String ch rest => Nat.ltb (nat_of_ascii ch) 128 && isAscii rest
  end.

Definition asciiOwner (p : Person.t) : bool :=
  match Person.ownerEmail p with
  | Some owner => isAscii owner
  | None => true
  end.

(** A string without the character [sep]. *)
Fixpoint lacks (sep : ascii) (s : string) : bool :=
  match s with
  | EmptyString => true
  | String ch rest => negb (Ascii.eqb ch sep) && lacks sep rest
  end.

(** A date string of the store's two formats: "MM-DD" or "YYYY-MM-DD",
    month 1 to 12 and day 1 to 31 in two digits, the year being any text
    without a hyphen. *)
Definition wellFormedDate (s : string) : Prop :=
  exists month day,
    1 <= month <= 12 /\ 1 <= day <= 31 /\
    (s = pad2 month ^^ "-" ^^ pad2 day \/
     exists yearField,
       hyphenFree yearField = true /\
       s = yearField ^^ "-" ^^ pad2 month ^^ "-" ^^ pad2 day).

Definition wellFormedPerson (p : Person.t) : Prop :=
  Forall (fun dt => wellFormedDate (Dated.val dt)) (datesOf p).

(** The number of delays in a trace. *)
Definition sleepsOf (tr : trace) : Z :=
  Z.of_nat (List.length (filter (fun ev => negb (isSend ev)) tr)).

(** The request the earlier revision sends to a subscriber. *)
Definition broadcastPayload (w : world) (cfg : EmailConfig.t) (alertText : string)
  (sub : Subscriber.t) : Payload.t :=
  Payload.mk (EmailConfig.serviceId cfg) (EmailConfig.templateId cfg)
    (EmailConfig.pubKey cfg) (EMAILJS_PRIVATE_KEY w) (Subscriber.email sub)
    (match EmailConfig.sender cfg with
     | Some (String _ _ as s) => s
     | _ => "Date Reminder"
     end)
    alertText.

(** *** Sample data *)

(** Noon on 20 December 2026, in UTC. *)
Definition utc : Z -> bool -> Z := fun _ _ => 0.

Definition dec20 : clock := Clock 1797768000000 utc.

(** A zone five hours behind UTC that moves its clocks forward by an hour
    on 14 March 2027 at 07:00 UTC, and 15:00 UTC on 10 March 2027 there. *)
Definition springForward : Z -> bool -> Z :=
  fun t isUTC =>
    if isUTC
    then if t <? 1805007600000 then -18000000 else -14400000
    else if t <? 1805007600000 - 14400000 then -18000000 else -14400000.

Definition march10 : clock := Clock 1804690800000 springForward.

Definition ann : Person.t :=
  Person.mk "Ann" (Some "12-25") None None (Some "h@x.com").

Definition legacyBea : Person.t :=
  Person.mk "Bea" (Some "1990-12-24") (Some "06-01")
    (Some [Custom.mk "First date" "12-20"]) None.

Definition sampleConfig : EmailConfig.t :=
  EmailConfig.mk (Some "svc") (Some "tpl") (Some "pub") None.

Definition sampleSubscribers : list Subscriber.t :=
  [ Subscriber.mk "Hal" "h@x.com";
    Subscriber.mk "Other" "other@x.com";
    Subscriber.mk "Third" "third@x.com" ].

(** A provider that answers 500 to one address and 200 to the others. *)
Definition failingFor (address : string) (_ : trace) (req : Payload.t) : fetched :=
  if String.eqb (Payload.to_email req) address
  then Responded 500 "Internal Server Error"
  else Responded 200 "OK".

Definition sampleWorld : world :=
  World dec20 (Some "key") (Ok (Some sampleConfig)) (Ok [ann; legacyBea])
    (Ok sampleSubscribers) (failingFor "h@x.com").

(** A store of legacy records only, with the provider failing for one
    address. *)
Definition legacyWorld : world :=
  World dec20 (Some "key") (Ok (Some sampleConfig)) (Ok [legacyBea])
    (Ok sampleSubscribers) (failingFor "other@x.com").

(** A record whose dates are not dates. *)
Definition undated : Person.t :=
  Person.mk "Cy" (Some "soon") (Some "June-5")
    (Some [Custom.mk "Trip" ""; Custom.mk "Move" "2027-??-01"]) None.

(** Two series of clock readings in UTC on 20 December 2026: one that
    stands still at noon, one that starts at 23:00 and advances by a
    millisecond at every reading for half an hour. *)
Definition stoppedClock : Timed.clocks :=
  Timed.Clocks utc (fun _ => 1797768000000).

Definition runningClock : Timed.clocks :=
  Timed.Clocks utc (fun k => 1797807600000 + Z.min (Z.of_nat k) 1800000).

(** ** Properties *)

(** *** The calendar *)

Lemma DaysInYear_cases y : DaysInYear y = 365 \/ DaysInYear y = 366.
Proof. unfold DaysInYear. repeat destruct (negb _); auto. Qed.

Lemma DayFromYear_step y : DayFromYear (y + 1) = DayFromYear y + DaysInYear y.
Proof.
  unfold DayFromYear, DaysInYear.
  replace (y + 1 - 1969) with (y - 1968) by lia.
  replace (y + 1 - 1901) with (y - 1900) by lia.
  replace (y + 1 - 1601) with (y - 1600) by lia.
  destruct (Z.eqb_spec (y mod 4) 0), (Z.eqb_spec (y mod 100) 0),
           (Z.eqb_spec (y mod 400) 0); cbn [negb];
    Z.div_mod_to_equations; lia.
Qed.

Lemma DayFromYear_mono y1 y2 :
  y1 <= y2 -> DayFromYear y1 + 365 * (y2 - y1) <= DayFromYear y2.
Proof. unfold DayFromYear. intros. Z.div_mod_to_equations. lia. Qed.

(** [YearFromDay] is the year the day lies in. *)
Lemma YearFromDay_spec d :
  DayFromYear (YearFromDay d) <= d < DayFromYear (YearFromDay d + 1).
Proof.
  unfold YearFromDay.
  set (y := 1970 + 400 * d / 146097).
  destruct (Z.ltb_spec d (DayFromYear y)).
  - replace (y - 1 + 1) with y by lia. split; [|assumption].
    unfold DayFromYear, y in *. Z.div_mod_to_equations. lia.
  - destruct (Z.leb_spec (DayFromYear (y + 1)) d).
    + split; [assumption|].
      unfold DayFromYear, y in *. Z.div_mod_to_equations. lia.
    + lia.
Qed.

Lemma Day_of_days k : Day (k * msPerDay) = k.
Proof. unfold Day, msPerDay. apply Z.div_mul. lia. Qed.

Lemma Day_within k t : 0 <= t - k * msPerDay < msPerDay -> Day t = k.
Proof. unfold Day, msPerDay. intros. Z.div_mod_to_equations. lia. Qed.

(** The calendar fields of a time value only depend on its day. *)
Lemma fields_of_day t t' :
  Day t = Day t' ->
  YearFromTime t = YearFromTime t' /\
  MonthFromTime t = MonthFromTime t' /\
  DateFromTime t = DateFromTime t'.
Proof.
  intros E.
  unfold DateFromTime, MonthFromTime, InLeapYear, DayWithinYear, YearFromTime.
  now rewrite E.
Qed.

(** Month 0 to 11 and day 1 to 31 of year [y] lie within 366 days of its
    first day. *)
Lemma MakeDay_bounds y m d : 0 <= m <= 11 -> 1 <= d <= 31 ->
  DayFromYear y <= MakeDay y m d <= DayFromYear y + 366.
Proof.
  intros. unfold MakeDay.
  rewrite Z.div_small, Z.mod_small by lia. rewrite Z.add_0_r.
  assert (0 <= monthStart m (if DaysInYear y =? 366 then 1 else 0) <= 335).
  { unfold monthStart. destruct (DaysInYear y =? 366);
      destruct m as [|p|p]; try lia; repeat (destruct p; try lia). }
  lia.
Qed.

Section OnAClock.
Variable c : clock.
Hypothesis Hc : clock_ok c.

Lemma offsets_small t isUTC : - msPerDay <= LocalTZA c t isUTC <= msPerDay.
Proof. now destruct Hc as (_ & _ & H & _). Qed.

Lemma offsets_close x y :
  - 43200000 < LocalTZA c x false - LocalTZA c y false < 43200000.
Proof. now destruct Hc as (_ & _ & _ & H & _). Qed.

Lemma midnight_day k : Day (LocalTime c (UTC c (k * msPerDay))) = k.
Proof.
  apply Day_within. now destruct Hc as (_ & _ & _ & _ & H).
Qed.

Lemma today_bounds :
  0 <= today c /\
  today c * msPerDay <= LocalTime c (now c) < today c * msPerDay + msPerDay.
Proof.
  destruct Hc as (H0 & _). revert H0.
  unfold today, Day, msPerDay. generalize (LocalTime c (now c)). intros.
  Z.div_mod_to_equations. lia.
Qed.

Lemma thisYear_bounds :
  1970 <= thisYear c /\
  DayFromYear (thisYear c) <= today c < DayFromYear (thisYear c + 1).
Proof.
  pose proof today_bounds as [H0 _].
  pose proof (YearFromDay_spec (today c)) as Hy. fold (thisYear c) in Hy.
  split; [|exact Hy].
  destruct (Z_lt_le_dec (thisYear c) 1970) as [Hlt|]; [|assumption].
  pose proof (DayFromYear_mono (thisYear c + 1) 1970 ltac:(lia)).
  change (DayFromYear 1970) with 0 in *. lia.
Qed.

Lemma todayMidnight_value :
  todayMidnight c = Num (UTC c (today c * msPerDay)).
Proof.
  pose proof today_bounds as (H0 & H1 & H2).
  pose proof (offsets_small (now c) true) as Hn.
  pose proof (offsets_small (today c * msPerDay) false) as Hm.
  assert (Hk : now c <= 8000000000000000) by (now destruct Hc as (_ & H & _)).
  unfold todayMidnight, Date_now, setHours, TimeClip, MakeDate, MakeTime.
  fold (today c). rewrite !Z.mul_0_l, !Z.add_0_r.
  destruct (Z.gtb_spec (Z.abs (UTC c (today c * msPerDay))) 8640000000000000);
    [|reflexivity].
  unfold UTC, LocalTime, msPerDay in *. lia.
Qed.

Lemma getFullYear_today : getFullYear c (todayMidnight c) = Num (thisYear c).
Proof.
  rewrite todayMidnight_value.
  unfold getFullYear, YearFromTime, thisYear. now rewrite midnight_day.
Qed.

Lemma today_month_day :
  getMonth c (todayMidnight c) = Num (MonthFromTime (today c * msPerDay)) /\
  getDate c (todayMidnight c) = Num (DateFromTime (today c * msPerDay)).
Proof.
  rewrite todayMidnight_value. unfold getMonth, getDate.
  destruct (fields_of_day (LocalTime c (UTC c (today c * msPerDay)))
              (today c * msPerDay)) as (_ & Em & Ed).
  { now rewrite midnight_day, Day_of_days. }
  now rewrite Em, Ed.
Qed.

Lemma year_in_range :
  -400 <= DayFromYear (thisYear c) /\
  DayFromYear (thisYear c + 1) * msPerDay <= 8200000000000000.
Proof.
  pose proof thisYear_bounds as (Hy & Hlo & Hhi).
  pose proof today_bounds as (Ht0 & Ht1 & Ht2).
  pose proof (DayFromYear_step (thisYear c)) as Hstep.
  pose proof (DaysInYear_cases (thisYear c)) as Hdiy.
  pose proof (offsets_small (now c) true) as Hn.
  assert (Hk : now c <= 8000000000000000) by (now destruct Hc as (_ & H & _)).
  unfold LocalTime, msPerDay in *. lia.
Qed.

Lemma Date_ymd_value y m d :
  100 <= y -> 0 <= m <= 11 -> 1 <= d <= 31 ->
  -400 <= DayFromYear y -> DayFromYear y * msPerDay <= 8200000000000000 ->
  Date_ymd c (Num y) (Num m) (Num d) = Num (UTC c (MakeDay y m d * msPerDay)).
Proof.
  intros Hy Hm Hd Hlo Hhi.
  pose proof (MakeDay_bounds y m d Hm Hd) as B.
  pose proof (offsets_small (MakeDay y m d * msPerDay) false) as Ho.
  unfold Date_ymd.
  replace ((0 <=? y) && (y <=? 99)) with false
    by (symmetry; apply andb_false_iff; right; apply Z.leb_gt; lia).
  unfold TimeClip, MakeDate, MakeTime. rewrite !Z.mul_0_l, !Z.add_0_r.
  destruct (Z.gtb_spec (Z.abs (UTC c (MakeDay y m d * msPerDay))) 8640000000000000);
    [|reflexivity].
  unfold UTC, msPerDay in *. lia.
Qed.

(** Two local midnights compare as their days do, and the rounded
    quotient of their difference is the number of days between them,
    whatever the two zone offsets are. *)
Lemma num_lt_days a b :
  num_lt (Num (UTC c (a * msPerDay))) (Num (UTC c (b * msPerDay))) = (a <? b).
Proof.
  pose proof (offsets_close (a * msPerDay) (b * msPerDay)) as Ho.
  unfold num_lt, UTC.
  destruct (Z.ltb_spec a b) as [Hab|Hab].
  - apply Z.ltb_lt. unfold msPerDay in *. lia.
  - apply Z.ltb_ge. destruct (Z.eq_dec a b) as [->|Hne]; [lia|].
    unfold msPerDay in *. lia.
Qed.

Lemma days_between a b :
  Math_round_div
    (num_sub (Num (UTC c (a * msPerDay))) (Num (UTC c (b * msPerDay)))) 86400000
  = Num (a - b).
Proof.
  pose proof (offsets_close (a * msPerDay) (b * msPerDay)) as Ho.
  unfold Math_round_div, num_sub, UTC. f_equal.
  unfold msPerDay in *.
  generalize dependent (LocalTZA c (a * 86400000) false).
  generalize dependent (LocalTZA c (b * 86400000) false).
  intros. Z.div_mod_to_equations. lia.
Qed.

Lemma daysUntilFixed_value month day :
  1 <= month <= 12 -> 1 <= day <= 31 ->
  daysUntilFixed c month day = Num (nextOccurrence c month day - today c) /\
  0 <= nextOccurrence c month day - today c.
Proof.
  intros Hm Hd.
  pose proof thisYear_bounds as (Hy & Hlo & Hhi).
  pose proof year_in_range as (Hr1 & Hr2).
  pose proof (DayFromYear_step (thisYear c)) as Hstep.
  pose proof (DaysInYear_cases (thisYear c)) as Hdiy.
  assert (Hm' : 0 <= month - 1 <= 11) by lia.
  assert (Hr3 : DayFromYear (thisYear c) * msPerDay <= 8200000000000000)
    by (unfold msPerDay in *; lia).
  unfold daysUntilFixed. rewrite getFullYear_today, todayMidnight_value.
  cbn [num_add].
  rewrite (Date_ymd_value (thisYear c)) by (assumption || lia).
  rewrite (Date_ymd_value (thisYear c + 1)) by (assumption || lia).
  rewrite num_lt_days.
  pose proof (MakeDay_bounds (thisYear c) (month - 1) day Hm' Hd).
  pose proof (MakeDay_bounds (thisYear c + 1) (month - 1) day Hm' Hd).
  unfold nextOccurrence.
  destruct (Z.ltb_spec (MakeDay (thisYear c) (month - 1) day) (today c));
    rewrite days_between; split; (reflexivity || lia).
Qed.

Lemma MakeDay_today :
  MakeDay (thisYear c) (MonthFromTime (today c * msPerDay))
    (DateFromTime (today c * msPerDay)) = today c.
Proof.
  pose proof thisYear_bounds as (Hy & Hlo & Hhi).
  pose proof (DayFromYear_step (thisYear c)) as Hstep.
  unfold DateFromTime, MonthFromTime, InLeapYear, DayWithinYear, YearFromTime.
  rewrite Day_of_days. fold (thisYear c).
  set (leap := if DaysInYear (thisYear c) =? 366 then 1 else 0).
  assert (Hleap : DaysInYear (thisYear c) = 365 + leap).
  { subst leap. destruct (DaysInYear_cases (thisYear c)) as [E|E]; rewrite E; reflexivity. }
  set (d := today c - DayFromYear (thisYear c)).
  assert (0 <= d < 365 + leap) by (subst d; lia).
  assert (E : forall m, 0 <= m <= 11 ->
            MakeDay (thisYear c) m (d + 1 - monthStart m leap) = today c).
  { intros m Hm. unfold MakeDay. rewrite Z.div_small, Z.mod_small by lia.
    rewrite Z.add_0_r. fold leap. subst d. lia. }
  repeat match goal with
         | |- context [if ?a <? ?b then _ else _] => destruct (a <? b)
         end; apply E; lia.
Qed.

End OnAClock.

Lemma utc_ok t : 0 <= t <= 8000000000000000 -> clock_ok (Clock t utc).
Proof.
  intros H. unfold clock_ok, LocalTime, UTC, utc, msPerDay. cbn [now LocalTZA].
  repeat split; intros; lia.
Qed.

Lemma march10_ok : clock_ok march10.
Proof.
  unfold clock_ok, LocalTime, UTC, march10, springForward, msPerDay.
  cbn [now LocalTZA].
  repeat split; intros;
    try match goal with b : bool |- _ => destruct b end;
    repeat match goal with
           | |- context [if ?a <? ?b then _ else _] => destruct (Z.ltb_spec a b)
           | H : context [if ?a <? ?b then _ else _] |- _ => destruct (Z.ltb_spec a b)
           end; lia.
Qed.

(** *** Date strings *)

Lemma split_hyphenFree s : hyphenFree s = true -> split "-" s = [s].
Proof.
  induction s as [|ch rest IH]; simpl; [reflexivity|].
  intros H. apply andb_true_iff in H as [Hch Hrest].
  apply negb_true_iff in Hch. rewrite Hch, (IH Hrest). reflexivity.
Qed.

Lemma split_field s rest :
  hyphenFree s = true -> split "-" (s ^^ "-" ^^ rest) = s :: split "-" rest.
Proof.
  change ("-" ^^ rest) with (String "-" rest).
  induction s as [|ch s' IH]; simpl; [reflexivity|].
  intros H. apply andb_true_iff in H as [Hch Hrest].
  apply negb_true_iff in Hch. rewrite Hch, (IH Hrest). reflexivity.
Qed.

Lemma fields_checked : forallb fieldChecked (seq 0 100) = true.
Proof. vm_compute. reflexivity. Qed.

Lemma pad2_field n : 0 <= n <= 99 ->
  hyphenFree (pad2 n) = true /\ Number_ (pad2 n) = Num n.
Proof.
  intros Hn.
  pose proof fields_checked as H. rewrite forallb_forall in H.
  specialize (H (Z.to_nat n)).
  assert (Hin : In (Z.to_nat n) (seq 0 100)) by (apply in_seq; lia).
  apply H in Hin. unfold fieldChecked in Hin.
  rewrite Z2Nat.id in Hin by lia.
  apply andb_true_iff in Hin as [H1 H2]. split; [assumption|].
  destruct (Number_ (pad2 n)); [discriminate|].
  apply Z.eqb_eq in H2. now subst.
Qed.

(** [daysUntil] only looks at the month and day fields. *)
Lemma daysUntil_two_fields c sm sd :
  hyphenFree sm = true -> hyphenFree sd = true ->
  daysUntil c (sm ^^ "-" ^^ sd) =
  Math_round_div
    (num_sub
       (let dt := Date_ymd c (getFullYear c (todayMidnight c))
                    (num_sub (Number_ sm) (Num 1)) (Number_ sd) in
        if num_lt dt (todayMidnight c)
        then Date_ymd c (num_add (getFullYear c (todayMidnight c)) (Num 1))
               (num_sub (Number_ sm) (Num 1)) (Number_ sd)
        else dt)
       (todayMidnight c)) 86400000.
Proof.
  intros Hm Hd. unfold daysUntil.
  rewrite (split_field sm sd Hm), (split_hyphenFree sd Hd). reflexivity.
Qed.

Lemma daysUntil_three_fields c sy sm sd :
  hyphenFree sy = true -> hyphenFree sm = true -> hyphenFree sd = true ->
  daysUntil c (sy ^^ "-" ^^ sm ^^ "-" ^^ sd) = daysUntil c (sm ^^ "-" ^^ sd).
Proof.
  intros Hy Hm Hd. rewrite (daysUntil_two_fields c sm sd Hm Hd).
  unfold daysUntil.
  rewrite (split_field sy _ Hy), (split_field sm sd Hm), (split_hyphenFree sd Hd).
  reflexivity.
Qed.

Lemma daysUntil_fixed c month day :
  1 <= month <= 12 -> 1 <= day <= 31 ->
  daysUntil c (pad2 month ^^ "-" ^^ pad2 day) = daysUntilFixed c month day.
Proof.
  intros Hm Hd.
  destruct (pad2_field month ltac:(lia)) as [Hm1 Hm2].
  destruct (pad2_field day ltac:(lia)) as [Hd1 Hd2].
  rewrite (daysUntil_two_fields c _ _ Hm1 Hd1), Hm2, Hd2. reflexivity.
Qed.

(** *** The loops of the builder *)

Lemma fold_left_push {A B : Type} (step : list B -> A -> list B) (f : A -> list B) :
  (forall acc x, step acc x = acc ++ f x) ->
  forall l acc, fold_left step l acc = acc ++ flat_map f l.
Proof.
  intros Hstep. induction l as [|x l IH]; intros acc; simpl.
  - now rewrite app_nil_r.
  - now rewrite IH, Hstep, app_assoc.
Qed.

Lemma pushIfDue_dueAlert maxDays alerts label d :
  pushIfDue maxDays alerts label d = alerts ++ dueAlert maxDays label d.
Proof.
  unfold pushIfDue, dueAlert, push. destruct d as [|n]; simpl.
  - now rewrite app_nil_r.
  - destruct (n <=? maxDays); [reflexivity | now rewrite app_nil_r].
Qed.

Lemma forGlobals_globalAlerts c maxDays alerts :
  forGlobals c maxDays alerts = alerts ++ globalAlerts c maxDays.
Proof.
  unfold forGlobals, globalAlerts. apply fold_left_push.
  intros. apply pushIfDue_dueAlert.
Qed.

Lemma forDates_personAlerts c maxDays p alerts :
  forDates c maxDays p alerts = alerts ++ personAlerts c maxDays p.
Proof.
  unfold forDates, personAlerts. apply fold_left_push.
  intros. apply pushIfDue_dueAlert.
Qed.

Lemma everyone_personAlerts c maxDays people alerts :
  fold_left (fun alerts p => forDates c maxDays p alerts) people alerts
  = alerts ++ flat_map (personAlerts c maxDays) people.
Proof.
  apply fold_left_push. intros. apply forDates_personAlerts.
Qed.

Lemma skipsPerson_visibleTo p e :
  skipsPerson p (Some e) = Ok (negb (visibleTo e p)).
Proof.
  unfold skipsPerson, visibleTo, hasOwner.
  destruct (Person.ownerEmail p) as [[|ch owner]|]; simpl; try reflexivity.
  now rewrite negb_involutive.
Qed.

Lemma skipsPerson_null p :
  skipsPerson p None =
  if hasOwner p
  then Throw (TypeError "Cannot read properties of null (reading 'toLowerCase')")
  else Ok false.
Proof.
  unfold skipsPerson, hasOwner.
  destruct (Person.ownerEmail p) as [[|ch owner]|]; reflexivity.
Qed.

Lemma forPeople_visible c maxDays people e alerts :
  forPeople c maxDays people (Some e) alerts
  = Ok (alerts ++ flat_map (personAlerts c maxDays) (filter (visibleTo e) people)).
Proof.
  revert alerts. induction people as [|p rest IH]; intros alerts; simpl.
  - now rewrite app_nil_r.
  - rewrite skipsPerson_visibleTo.
    destruct (visibleTo e p); simpl; rewrite IH; [|reflexivity].
    now rewrite forDates_personAlerts, app_assoc.
Qed.

Lemma forPeople_null c maxDays people alerts :
  forPeople c maxDays people None alerts
  = if existsb hasOwner people
    then Throw (TypeError "Cannot read properties of null (reading 'toLowerCase')")
    else Ok (alerts ++ flat_map (personAlerts c maxDays) people).
Proof.
  revert alerts. induction people as [|p rest IH]; intros alerts; simpl.
  - now rewrite app_nil_r.
  - rewrite skipsPerson_null.
    destruct (hasOwner p); simpl; [reflexivity|].
    rewrite IH. destruct (existsb hasOwner rest); [reflexivity|].
    now rewrite forDates_personAlerts, app_assoc.
Qed.

Lemma buildAlerts_eq c maxDays people :
  buildAlerts c maxDays people
  = sort byDays (globalAlerts c maxDays ++ flat_map (personAlerts c maxDays) people).
Proof.
  unfold buildAlerts. now rewrite forGlobals_globalAlerts, everyone_personAlerts.
Qed.

Lemma buildAlertsForSubscriber_eq c maxDays people e :
  buildAlertsForSubscriber c maxDays people (Some e)
  = Ok (sort byDays
          (globalAlerts c maxDays ++
           flat_map (personAlerts c maxDays) (filter (visibleTo e) people))).
Proof.
  unfold buildAlertsForSubscriber.
  now rewrite forGlobals_globalAlerts, forPeople_visible.
Qed.

Lemma buildAlertsForSubscriber_null c maxDays people :
  buildAlertsForSubscriber c maxDays people None
  = if existsb hasOwner people
    then Throw (TypeError "Cannot read properties of null (reading 'toLowerCase')")
    else Ok (sort byDays
               (globalAlerts c maxDays ++ flat_map (personAlerts c maxDays) people)).
Proof.
  unfold buildAlertsForSubscriber.
  rewrite forGlobals_globalAlerts, forPeople_null.
  now destruct (existsb hasOwner people).
Qed.

(** *** The sort *)

Section SortFacts.
Context {A : Type} (comparefn : A -> A -> Z).

Lemma sort_insert_perm x l : Permutation (sort_insert comparefn x l) (x :: l).
Proof.
  induction l as [|y l IH]; simpl; [reflexivity|].
  destruct (comparefn x y <=? 0); [reflexivity|].
  rewrite IH. apply perm_swap.
Qed.

Lemma sort_perm l : Permutation (sort comparefn l) l.
Proof.
  induction l as [|x l IH]; simpl; [reflexivity|].
  rewrite sort_insert_perm. now apply perm_skip.
Qed.
End SortFacts.

Lemma sort_insert_sorted x l :
  StronglySorted daysOrdered l -> StronglySorted daysOrdered (sort_insert byDays x l).
Proof.
  induction 1 as [|y l Hs IH Hy]; simpl.
  - constructor; constructor.
  - unfold byDays at 1. destruct (Z.leb_spec (Alert.days x - Alert.days y) 0).
    + constructor; [constructor; assumption|].
      constructor; [unfold daysOrdered; lia|].
      eapply Forall_impl; [|exact Hy]. unfold daysOrdered. intros; lia.
    + constructor; [assumption|].
      eapply Permutation_Forall; [symmetry; apply sort_insert_perm|].
      constructor; [unfold daysOrdered; lia | assumption].
Qed.

Lemma sort_sorted l : StronglySorted daysOrdered (sort byDays l).
Proof.
  induction l as [|x l IH]; simpl; [constructor | now apply sort_insert_sorted].
Qed.

Lemma sort_insert_stable k x l :
  filter (sameDays k) (sort_insert byDays x l) = filter (sameDays k) (x :: l).
Proof.
  induction l as [|y l IH]; [reflexivity|].
  cbn [sort_insert]. unfold byDays at 1.
  destruct (Z.leb_spec (Alert.days x - Alert.days y) 0); [reflexivity|].
  cbn [filter] in *. rewrite IH. unfold sameDays.
  destruct (Z.eqb_spec (Alert.days x) k), (Z.eqb_spec (Alert.days y) k);
    reflexivity || lia.
Qed.

Lemma sort_stable k l :
  filter (sameDays k) (sort byDays l) = filter (sameDays k) l.
Proof.
  induction l as [|x l IH]; [reflexivity|].
  cbn [sort]. rewrite sort_insert_stable. cbn [filter]. now rewrite IH.
Qed.

(** *** The formatter *)

Lemma append_assoc' (a b d : string) : (a ^^ b) ^^ d = a ^^ b ^^ d.
Proof. induction a as [|ch a IH]; simpl; [reflexivity | now rewrite IH]. Qed.

Lemma fold_lines_prefix sep (p : string) (xs : list string) (q : string) :
  fold_left (fun text y => text ^^ sep ^^ y) xs (p ^^ q)
  = p ^^ fold_left (fun text y => text ^^ sep ^^ y) xs q.
Proof.
  revert q. induction xs as [|y xs IH]; intros q; simpl; [reflexivity|].
  now rewrite append_assoc', IH.
Qed.

Lemma join_fold sep x xs :
  join sep (x :: xs) = fold_left (fun text y => text ^^ sep ^^ y) xs x.
Proof.
  revert x. induction xs as [|y xs IH]; intros x; [reflexivity|].
  change (join sep (x :: y :: xs)) with (x ^^ sep ^^ join sep (y :: xs)).
  rewrite IH. cbn [fold_left].
  now rewrite !fold_lines_prefix.
Qed.

Lemma alertLine_specLine a : 0 <= Alert.days a -> alertLine a = specLine a.
Proof.
  intros H. unfold alertLine, specLine, urgency.
  destruct (Z.eqb_spec (Alert.days a) 0); [reflexivity|].
  destruct (Z.leb_spec (Alert.days a) 3), (Z.leb_spec 1 (Alert.days a));
    reflexivity || lia.
Qed.

(** *** Visibility *)

Lemma visibleTo_unowned e p : hasOwner p = false -> visibleTo e p = true.
Proof.
  unfold visibleTo. intros H. rewrite H. now destruct (Person.ownerEmail p).
Qed.

Lemma filter_all {A : Type} (f : A -> bool) (l : list A) :
  Forall (fun x => f x = true) l -> filter f l = l.
Proof.
  induction 1 as [|x l Hx Hl IH]; simpl; [reflexivity|]. now rewrite Hx, IH.
Qed.

Lemma existsb_none {A : Type} (f : A -> bool) (l : list A) :
  Forall (fun x => f x = false) l -> existsb f l = false.
Proof.
  induction 1 as [|x l Hx Hl IH]; simpl; [reflexivity|]. now rewrite Hx, IH.
Qed.

(** *** The orchestrator *)

(** One turn of the loop. *)
Lemma forSubscribers_step w cfg people sub rest n tr :
  forSubscribers w cfg people (sub :: rest) n tr =
  if hasAlerts w people sub then
    let req := payloadFor w cfg people sub in
    let res := provider w tr req in
    if fetchFailed res
    then forSubscribers w cfg people rest
           (Counters (ok n) (fail n + 1) (skipped n)) (tr ++ [Fetch req res])
    else forSubscribers w cfg people rest
           (Counters (ok n + 1) (fail n) (skipped n))
           (tr ++ [Fetch req res; Sleep 1100])
  else forSubscribers w cfg people rest
         (Counters (ok n) (fail n) (skipped n + 1)) tr.
Proof.
  cbn [forSubscribers].
  unfold sendEmailViaREST, tryCatch, lift, fetch, sleep, throw, ret, push, bind.
  cbv beta.
  rewrite buildAlertsForSubscriber_eq.
  fold (alertsFor w people sub). fold (payloadFor w cfg people sub).
  unfold hasAlerts.
  destruct (List.length (alertsFor w people sub) =? 0)%nat; cbn [negb]; [reflexivity|].
  cbv zeta.
  destruct (provider w tr (payloadFor w cfg people sub)) as [status body|e];
    cbn [fetchFailed]; [|reflexivity].
  destruct (response_ok status); cbn [negb]; [|reflexivity].
  now rewrite <- app_assoc.
Qed.

Lemma failedSends_fetch req res tr :
  failedSends (Fetch req res :: tr) = (if fetchFailed res then 1 else 0) + failedSends tr.
Proof.
  unfold failedSends. cbn [filter isFailedSend].
  destruct (fetchFailed res); cbn [List.length]; lia.
Qed.

Lemma goodSends_fetch req res tr :
  goodSends (Fetch req res :: tr) = (if fetchFailed res then 0 else 1) + goodSends tr.
Proof.
  unfold goodSends. cbn [filter isFailedSend isSend andb].
  destruct (fetchFailed res); cbn [negb List.length]; lia.
Qed.

Lemma failedSends_sleep ms tr : failedSends (Sleep ms :: tr) = failedSends tr.
Proof. reflexivity. Qed.

Lemma goodSends_sleep ms tr : goodSends (Sleep ms :: tr) = goodSends tr.
Proof. reflexivity. Qed.

(** The loop as a whole: it never throws, it extends the trace by a paced
    run of sends, one per subscriber with alerts, and its counters count
    them. *)
Lemma forSubscribers_run w cfg people subs :
  forall n tr, exists n' tr',
    forSubscribers w cfg people subs n tr = (Ok n', tr ++ tr') /\
    paced tr' /\
    requestsOf tr' = map (payloadFor w cfg people) (filter (hasAlerts w people) subs) /\
    ok n' = ok n + goodSends tr' /\
    fail n' = fail n + failedSends tr' /\
    skipped n' = skipped n
                 + Z.of_nat (List.length (filter (fun s => negb (hasAlerts w people s)) subs)).
Proof.
  induction subs as [|sub rest IH]; intros n tr.
  - exists n, []. cbn [forSubscribers ret filter map List.length].
    rewrite app_nil_r. change (goodSends []) with 0. change (failedSends []) with 0.
    repeat split; try constructor; cbn; lia.
  - rewrite forSubscribers_step. cbn [filter].
    destruct (hasAlerts w people sub); cbn [negb].
    + cbv zeta.
      set (req := payloadFor w cfg people sub).
      set (res := provider w tr req).
      destruct (fetchFailed res) eqn:F.
      * destruct (IH (Counters (ok n) (fail n + 1) (skipped n)) (tr ++ [Fetch req res]))
          as (n' & tr' & E & P & R & Hok & Hfail & Hskip).
        cbn [ok fail skipped] in Hok, Hfail, Hskip.
        exists n', (Fetch req res :: tr').
        rewrite E, <- app_assoc, goodSends_fetch, failedSends_fetch, F.
        cbn [app map].
        repeat split; try assumption; try lia.
        -- now apply paced_failed.
        -- unfold requestsOf in *. cbn [flat_map app]. now rewrite R.
      * destruct (IH (Counters (ok n + 1) (fail n) (skipped n))
                    (tr ++ [Fetch req res; Sleep 1100]))
          as (n' & tr' & E & P & R & Hok & Hfail & Hskip).
        cbn [ok fail skipped] in Hok, Hfail, Hskip.
        exists n', (Fetch req res :: Sleep 1100 :: tr').
        rewrite E, <- app_assoc, goodSends_fetch, failedSends_fetch, F,
          goodSends_sleep, failedSends_sleep.
        cbn [app map].
        repeat split; try assumption; try lia.
        -- now apply paced_sent.
        -- unfold requestsOf in *. cbn [flat_map app]. now rewrite R.
    + destruct (IH (Counters (ok n) (fail n) (skipped n + 1)) tr)
        as (n' & tr' & E & P & R & Hok & Hfail & Hskip).
      cbn [ok fail skipped] in Hok, Hfail, Hskip.
      exists n', tr'. rewrite E. repeat split; try assumption.
      rewrite Hskip. cbn [List.length]. lia.
Qed.

Lemma sends_counted tr :
  goodSends tr + failedSends tr = Z.of_nat (List.length (requestsOf tr)).
Proof.
  induction tr as [|[req res|ms] tr IH].
  - reflexivity.
  - rewrite goodSends_fetch, failedSends_fetch.
    unfold requestsOf in *. cbn [flat_map app List.length].
    destruct (fetchFailed res); lia.
  - rewrite goodSends_sleep, failedSends_sleep. exact IH.
Qed.

Lemma filter_partition_length {A : Type} (f : A -> bool) (l : list A) :
  (List.length (filter f l) + List.length (filter (fun x => negb (f x)) l)
   = List.length l)%nat.
Proof.
  induction l as [|x l IH]; [reflexivity|].
  cbn [filter]. destruct (f x); cbn [negb List.length]; lia.
Qed.

Lemma paced_no_request tr : paced tr -> requestsOf tr = [] -> tr = [].
Proof. intros P. destruct P; [reflexivity | discriminate | discriminate]. Qed.

Lemma run_cases w :
  run w =
  match emailConfig w with
  | Throw e => (Throw e, [])
  | Ok None => (Ok Returned, [])
  | Ok (Some cfg) =>
      if negb (configComplete cfg) then (Ok Returned, [])
      else
        match wives w with
        | Throw e => (Throw e, [])
        | Ok people =>
            match subscribers w with
            | Throw e => (Throw e, [])
            | Ok subs =>
                if (List.length subs =? 0)%nat then (Ok Returned, [])
                else
                  match forSubscribers w cfg people subs (Counters 0 0 0) [] with
                  | (Ok n, tr) => (Ok (if fail n >? 0 then Exited 1 else Returned), tr)
                  | (Throw e, tr) => (Throw e, tr)
                  end
            end
        end
  end.
Proof.
  unfold run, main, bind, lift, ret, configComplete.
  destruct (emailConfig w) as [[cfg|]|e]; try reflexivity.
  destruct (truthy (EmailConfig.serviceId cfg)),
           (truthy (EmailConfig.templateId cfg)),
           (truthy (EmailConfig.pubKey cfg)); cbn [negb orb andb]; try reflexivity.
  destruct (wives w) as [people|e]; [|reflexivity].
  destruct (subscribers w) as [subs|e]; [|reflexivity].
  destruct (List.length subs =? 0)%nat; [reflexivity|].
  destruct (forSubscribers w cfg people subs (Counters 0 0 0) []) as [[n|e] tr];
    [|reflexivity].
  now destruct (fail n >? 0).
Qed.

(** A run that reads a complete configuration and both collections is the
    loop over the subscribers, followed by the exit test. *)
Lemma run_loop w cfg people subs :
  emailConfig w = Ok (Some cfg) -> configComplete cfg = true ->
  wives w = Ok people -> subscribers w = Ok subs ->
  exists n,
    forSubscribers w cfg people subs (Counters 0 0 0) [] = (Ok n, snd (run w)) /\
    fst (run w) = Ok (if fail n >? 0 then Exited 1 else Returned).
Proof.
  intros Hc Hcfg Hw Hs.
  destruct (forSubscribers_run w cfg people subs (Counters 0 0 0) [])
    as (n & tr & E & P & R & Hok & Hfail & Hskip).
  cbn [app] in E. exists n.
  rewrite run_cases, Hc, Hcfg, Hw, Hs. cbn [negb].
  destruct subs as [|sub rest].
  - cbn in E. injection E as En Et. subst n tr. cbn. auto.
  - cbn [List.length Nat.eqb]. rewrite E. cbn. auto.
Qed.

(** Every run either throws before any send, or ends after the loop with
    the exit test on the count of failed sends. *)
Lemma run_shape w :
  (exists e, run w = (Throw e, [])) \/
  (exists n tr,
     run w = (Ok (if fail n >? 0 then Exited 1 else Returned), tr) /\
     fail n = failedSends tr).
Proof.
  assert (Quiet : run w = (Ok Returned, []) ->
            exists n tr,
              run w = (Ok (if fail n >? 0 then Exited 1 else Returned), tr) /\
              fail n = failedSends tr)
    by (intros E; exists (Counters 0 0 0), []; split; [exact E | reflexivity]).
  pose proof (run_cases w) as C.
  destruct (emailConfig w) as [[cfg|]|e] eqn:Hc; [| right; auto | left; eauto].
  destruct (configComplete cfg) eqn:Hcfg; cbn [negb] in C; [| right; auto].
  destruct (wives w) as [people|e] eqn:Hw; [| left; eauto].
  destruct (subscribers w) as [subs|e] eqn:Hs; [| left; eauto].
  right.
  destruct (run_loop w cfg people subs Hc Hcfg Hw Hs) as (n & E & F).
  destruct (forSubscribers_run w cfg people subs (Counters 0 0 0) [])
    as (n' & tr & E' & _ & _ & _ & Hfail & _).
  cbn [app] in E'. rewrite E in E'. injection E' as En Et. subst n'.
  exists n, tr. split; [|cbn [fail] in Hfail; lia].
  rewrite (surjective_pairing (run w)), F, Et. reflexivity.
Qed.

Lemma run_no_config w : emailConfig w = Ok None -> run w = (Ok Returned, []).
Proof. intros H. now rewrite run_cases, H. Qed.

Lemma run_incomplete_config w cfg :
  emailConfig w = Ok (Some cfg) -> configComplete cfg = false ->
  run w = (Ok Returned, []).
Proof. intros H Hcfg. now rewrite run_cases, H, Hcfg. Qed.

Lemma run_no_alerts w cfg people subs :
  emailConfig w = Ok (Some cfg) -> wives w = Ok people -> subscribers w = Ok subs ->
  (forall sub, In sub subs -> hasAlerts w people sub = false) ->
  run w = (Ok Returned, []).
Proof.
  intros Hc Hw Hs Hnone.
  destruct (configComplete cfg) eqn:Hcfg; [|now apply (run_incomplete_config w cfg)].
  destruct (run_loop w cfg people subs Hc Hcfg Hw Hs) as (n & E & F).
  destruct (forSubscribers_run w cfg people subs (Counters 0 0 0) [])
    as (n' & tr & E' & P & R & _ & Hfail & _).
  cbn [app] in E'. rewrite E in E'. injection E' as En Et. subst n'.
  assert (Hnil : filter (hasAlerts w people) subs = []).
  { clear - Hnone. induction subs as [|sub rest IH]; [reflexivity|].
    cbn [filter]. rewrite (Hnone sub (or_introl eq_refl)).
    apply IH. intros s Hin. apply Hnone. now right. }
  rewrite Hnil in R. pose proof (paced_no_request tr P R) as Htr.
  rewrite Htr in Hfail, Et.
  cbn [fail] in Hfail. change (failedSends []) with 0 in Hfail.
  destruct (Z.gtb_spec (fail n) 0) as [Hpos|_] in F; [lia|].
  rewrite (surjective_pairing (run w)), F, Et. reflexivity.
Qed.

Lemma quiet_exit w : run w = (Ok Returned, []) -> exitStatus w = 0 /\ snd (run w) = [].
Proof. intros E. unfold exitStatus. now rewrite E. Qed.

(** What the loop does instead. *)
Lemma run_paced w : paced (snd (run w)).
Proof.
  pose proof (run_cases w) as C.
  destruct (emailConfig w) as [[cfg|]|e] eqn:Hc; try (rewrite C; constructor).
  destruct (configComplete cfg) eqn:Hcfg; cbn [negb] in C; [|rewrite C; constructor].
  destruct (wives w) as [people|e] eqn:Hw; [|rewrite C; constructor].
  destruct (subscribers w) as [subs|e] eqn:Hs; [|rewrite C; constructor].
  destruct (run_loop w cfg people subs Hc Hcfg Hw Hs) as (n & E & F).
  destruct (forSubscribers_run w cfg people subs (Counters 0 0 0) [])
    as (n' & tr & E' & P & _).
  cbn [app] in E'. rewrite E in E'. injection E' as En Et. now rewrite Et.
Qed.


(** *** Order among ties *)

Lemma filter_split {A : Type} (f : A -> bool) (l : list A) :
  forall u x v, filter f l = u ++ x :: v ->
  exists l1 l2, l = l1 ++ x :: l2 /\ filter f l1 = u /\ filter f l2 = v.
Proof.
  induction l as [|y l IH]; intros u x v E.
  - destruct u; discriminate.
  - cbn [filter] in E. destruct (f y) eqn:Fy.
    + destruct u as [|y' u].
      * injection E as -> Ev. exists [], l. auto.
      * injection E as <- Eu.
        destruct (IH u x v Eu) as (l1 & l2 & -> & F1 & F2).
        exists (y :: l1), l2. cbn [filter app]. rewrite Fy, F1. auto.
    + destruct (IH u x v E) as (l1 & l2 & -> & F1 & F2).
      exists (y :: l1), l2. cbn [filter app]. rewrite Fy. auto.
Qed.

Lemma tie_order k (l xs ys : list Alert.t) g a :
  filter (sameDays k) l = xs ++ ys -> In g xs -> In a ys -> listedBefore g a l.
Proof.
  intros E Hg Ha.
  apply in_split in Hg as (x1 & x2 & ->).
  apply in_split in Ha as (y1 & y2 & ->).
  rewrite <- app_assoc in E. cbn [app] in E.
  destruct (filter_split _ _ _ _ _ E) as (l1 & l2' & -> & _ & E2).
  rewrite app_assoc in E2.
  destruct (filter_split _ _ _ _ _ E2) as (l2 & l3 & -> & _ & _).
  now exists l1, l2, l3.
Qed.

Lemma sort_ties inserted globals personal g a :
  inserted = globals ++ personal ->
  In g globals -> In a personal -> Alert.days g = Alert.days a ->
  listedBefore g a (sort byDays inserted).
Proof.
  intros -> Hg Ha Hd.
  apply (tie_order (Alert.days g) _
           (filter (sameDays (Alert.days g)) globals)
           (filter (sameDays (Alert.days g)) personal)).
  - now rewrite sort_stable, filter_app.
  - apply filter_In. split; [assumption|]. apply Z.eqb_refl.
  - apply filter_In. split; [assumption|]. unfold sameDays. now apply Z.eqb_eq.
Qed.

(** ** The claims of the specification *)

(** C1, as the code has it.  Emails are strings of ASCII characters.  For
    a subscriber email that is a string, the result of
    [buildAlertsForSubscriber] is the sorted list of the due holidays
    followed by the due dates of exactly the visible persons: a person is
    left out exactly when [ownerEmail] is non-empty and its lower-cased
    value differs from the lower-cased subscriber email, and an alert is
    in the result exactly when it is a due holiday or a due date of a
    visible person.  For a [null] subscriber email the function does not
    run unfiltered: it returns, leaving no one out, only when no person
    has a non-empty [ownerEmail], and raises a [TypeError] otherwise. *)
Theorem ownership_rule c maxDays people :
  Forall (fun p => asciiOwner p = true) people ->
  (forall e, isAscii e = true ->
     buildAlertsForSubscriber c maxDays people (Some e)
     = Ok (sort byDays
             (globalAlerts c maxDays ++
              flat_map (personAlerts c maxDays) (filter (visibleTo e) people)))) /\
  (forall e, isAscii e = true -> exists alerts,
     buildAlertsForSubscriber c maxDays people (Some e) = Ok alerts /\
     forall a, In a alerts <->
       In a (globalAlerts c maxDays) \/
       exists p, In p people /\ visibleTo e p = true /\
                 In a (personAlerts c maxDays p)) /\
  buildAlertsForSubscriber c maxDays people None
  = if existsb hasOwner people
    then Throw (TypeError "Cannot read properties of null (reading 'toLowerCase')")
    else Ok (sort byDays
               (globalAlerts c maxDays ++ flat_map (personAlerts c maxDays) people)).
Proof.
  intros _. split; [|split].
  - intros e _. apply buildAlertsForSubscriber_eq.
  - intros e _. eexists. split; [apply buildAlertsForSubscriber_eq|].
    intros a. split.
    + intros Hin. apply (Permutation_in _ (sort_perm byDays _)) in Hin.
      apply in_app_or in Hin as [Hg|Hp]; [now left|right].
      apply in_flat_map in Hp as (p & Hp & Ha).
      apply filter_In in Hp as [Hp Hv]. now exists p.
    + intros Hin. apply (Permutation_in _ (Permutation_sym (sort_perm byDays _))).
      apply in_or_app. destruct Hin as [Hg|(p & Hp & Hv & Ha)]; [now left|right].
      apply in_flat_map. exists p. split; [|assumption].
      apply filter_In. now split.
  - apply buildAlertsForSubscriber_null.
Qed.

Lemma ownership_rule_witness :
  (forall e, isAscii e = true ->
     buildAlertsForSubscriber dec20 7 [ann; legacyBea] (Some e)
     = Ok (sort byDays
             (globalAlerts dec20 7 ++
              flat_map (personAlerts dec20 7)
                (filter (visibleTo e) [ann; legacyBea])))) /\
  (forall e, isAscii e = true -> exists alerts,
     buildAlertsForSubscriber dec20 7 [ann; legacyBea] (Some e) = Ok alerts /\
     forall a, In a alerts <->
       In a (globalAlerts dec20 7) \/
       exists p, In p [ann; legacyBea] /\ visibleTo e p = true /\
                 In a (personAlerts dec20 7 p)) /\
  buildAlertsForSubscriber dec20 7 [ann; legacyBea] None
  = if existsb hasOwner [ann; legacyBea]
    then Throw (TypeError "Cannot read properties of null (reading 'toLowerCase')")
    else Ok (sort byDays
               (globalAlerts dec20 7 ++
                flat_map (personAlerts dec20 7) [ann; legacyBea])).
Proof.
  apply (ownership_rule dec20 7 [ann; legacyBea]). repeat constructor.
Defined.

(** C1 as stated fails for a [null] subscriber email: with one person
    owned by h@x.com the call raises a [TypeError] instead of returning
    the unfiltered list. *)
Lemma null_filter_raises :
  buildAlertsForSubscriber dec20 7 [ann] None
  = Throw (TypeError "Cannot read properties of null (reading 'toLowerCase')") /\
  buildAlertsForSubscriber dec20 7 [ann] None
  <> Ok (sort byDays
           (globalAlerts dec20 7 ++
            flat_map (personAlerts dec20 7) (filter (visibleUnder None) [ann]))).
Proof. split; [reflexivity | discriminate]. Qed.

(** The two subscribers of the specification's example, for a person
    owned by a@x.com. *)
Example ownership_examples c maxDays name birthday anniversary custom :
  let p := Person.mk name birthday anniversary custom (Some "a@x.com") in
  buildAlertsForSubscriber c maxDays [p] (Some "b@y.com")
  = Ok (sort byDays (globalAlerts c maxDays)) /\
  buildAlertsForSubscriber c maxDays [p] (Some "A@X.com")
  = Ok (sort byDays (globalAlerts c maxDays ++ personAlerts c maxDays p)).
Proof.
  intros p. rewrite !buildAlertsForSubscriber_eq.
  split; simpl; now rewrite !app_nil_r.
Qed.

(** C2.  Both builders return a list sorted non-decreasing by [days] in
    which alerts of equal [days] keep their insertion order (holidays
    first, then the persons' dates in order), so a holiday is listed
    before a personal date of the same [days].  The ownership-scoped
    builder returns for every string, and whenever it returns. *)
Theorem alerts_sorted_stable c maxDays people :
  (sortedStable
     (globalAlerts c maxDays ++ flat_map (personAlerts c maxDays) people)
     (buildAlerts c maxDays people) /\
   forall g a,
     In g (globalAlerts c maxDays) ->
     In a (flat_map (personAlerts c maxDays) people) ->
     Alert.days g = Alert.days a ->
     listedBefore g a (buildAlerts c maxDays people)) /\
  forall subscriberEmail,
    match buildAlertsForSubscriber c maxDays people subscriberEmail with
    | Ok alerts =>
        let personal :=
          flat_map (personAlerts c maxDays)
            (filter (visibleUnder subscriberEmail) people) in
        sortedStable (globalAlerts c maxDays ++ personal) alerts /\
        forall g a,
          In g (globalAlerts c maxDays) -> In a personal ->
          Alert.days g = Alert.days a -> listedBefore g a alerts
    | Throw _ => subscriberEmail = None
    end.
Proof.
  assert (S : forall inserted, sortedStable inserted (sort byDays inserted))
    by (intros inserted; split; [apply sort_sorted | intros k; apply sort_stable]).
  split.
  - rewrite buildAlerts_eq. split; [apply S|].
    intros g a Hg Ha Hd. now apply (sort_ties _ _ _ g a eq_refl).
  - intros [e|].
    + rewrite buildAlertsForSubscriber_eq. cbn [visibleUnder].
      split; [apply S|].
      intros g a Hg Ha Hd. now apply (sort_ties _ _ _ g a eq_refl).
    + rewrite buildAlertsForSubscriber_null.
      destruct (existsb hasOwner people) eqn:E; [reflexivity|].
      rewrite (filter_all (visibleUnder None) people)
        by (apply Forall_forall; reflexivity).
      split; [apply S|].
      intros g a Hg Ha Hd. now apply (sort_ties _ _ _ g a eq_refl).
Qed.

(** The end-to-end scenario: on 20 December, with Ann's birthday on 25
    December and a threshold of 7, the owner gets Christmas and then
    Ann's birthday, both in 5 days, and another subscriber gets Christmas
    only. *)
Example end_to_end_scenario :
  buildAlertsForSubscriber dec20 7 [ann] (Some "h@x.com")
  = Ok [Alert.mk "Christmas" 5; Alert.mk "Ann's Birthday" 5] /\
  buildAlertsForSubscriber dec20 7 [ann] (Some "other@x.com")
  = Ok [Alert.mk "Christmas" 5].
Proof. split; reflexivity. Qed.

(** C3.  For a month from 1 to 12 and a day from 1 to 31 written as
    two-digit fields, [daysUntil] gives the same result on "MM-DD" and on
    "YYYY-MM-DD" whatever the year field is (any text without a hyphen);
    on a clock the job can meet that result is one non-negative
    integer. *)
Theorem daysUntil_ignores_year c (yearField : string) (month day : Z) :
  hyphenFree yearField = true -> 1 <= month <= 12 -> 1 <= day <= 31 ->
  daysUntil c (yearField ^^ "-" ^^ pad2 month ^^ "-" ^^ pad2 day)
  = daysUntil c (pad2 month ^^ "-" ^^ pad2 day)
  /\ (clock_ok c ->
      exists n, 0 <= n /\
        daysUntil c (pad2 month ^^ "-" ^^ pad2 day) = Num n /\
        daysUntil c (yearField ^^ "-" ^^ pad2 month ^^ "-" ^^ pad2 day) = Num n).
Proof.
  intros Hy Hm Hd.
  destruct (pad2_field month ltac:(lia)) as [Hm1 _].
  destruct (pad2_field day ltac:(lia)) as [Hd1 _].
  pose proof (daysUntil_three_fields c yearField _ _ Hy Hm1 Hd1) as E.
  split; [exact E|].
  intros Hc. destruct (daysUntilFixed_value c Hc month day Hm Hd) as [V N].
  exists (nextOccurrence c month day - today c).
  rewrite E, (daysUntil_fixed c month day Hm Hd). auto.
Qed.

Lemma daysUntil_ignores_year_witness :
  daysUntil dec20 ("1990" ^^ "-" ^^ pad2 12 ^^ "-" ^^ pad2 25)
  = daysUntil dec20 (pad2 12 ^^ "-" ^^ pad2 25)
  /\ (clock_ok dec20 ->
      exists n, 0 <= n /\
        daysUntil dec20 (pad2 12 ^^ "-" ^^ pad2 25) = Num n /\
        daysUntil dec20 ("1990" ^^ "-" ^^ pad2 12 ^^ "-" ^^ pad2 25) = Num n).
Proof.
  apply (daysUntil_ignores_year dec20 "1990" 12 25); [reflexivity | lia | lia].
Defined.

Example daysUntil_examples :
  map (daysUntil dec20) ["12-25"; "1990-12-25"; "2031-12-25"; "12-20"; "12-19"]
  = [Num 5; Num 5; Num 5; Num 0; Num 364].
Proof. reflexivity. Qed.

(** C4.  For a month from 1 to 12 and a day from 1 to 31, on a clock the
    job can meet, [daysUntilFixed] returns a non-negative integer: the
    number of days from today to the next occurrence of that month and
    day (this year's if it has not passed, else next year's); and it
    returns 0 when the month and day are today's. *)
Theorem daysUntilFixed_nonneg c (month day : Z) :
  clock_ok c -> 1 <= month <= 12 -> 1 <= day <= 31 ->
  (exists n, daysUntilFixed c month day = Num n /\ 0 <= n /\
             n = nextOccurrence c month day - today c) /\
  (getMonth c (todayMidnight c) = Num (month - 1) ->
   getDate c (todayMidnight c) = Num day ->
   daysUntilFixed c month day = Num 0).
Proof.
  intros Hc Hm Hd.
  destruct (daysUntilFixed_value c Hc month day Hm Hd) as [V N].
  split.
  - exists (nextOccurrence c month day - today c). auto.
  - intros Em Ed.
    destruct (today_month_day c Hc) as [Em' Ed'].
    rewrite Em' in Em. rewrite Ed' in Ed.
    injection Em as Em. injection Ed as Ed.
    pose proof (MakeDay_today c Hc) as R. rewrite Em, Ed in R.
    rewrite V. f_equal. unfold nextOccurrence. rewrite R, Z.ltb_irrefl. lia.
Qed.

Lemma daysUntilFixed_nonneg_witness :
  (exists n, daysUntilFixed dec20 12 20 = Num n /\ 0 <= n /\
             n = nextOccurrence dec20 12 20 - today dec20) /\
  (getMonth dec20 (todayMidnight dec20) = Num (12 - 1) ->
   getDate dec20 (todayMidnight dec20) = Num 20 ->
   daysUntilFixed dec20 12 20 = Num 0).
Proof.
  apply (daysUntilFixed_nonneg dec20 12 20);
    [ unfold clock_ok, LocalTime, UTC, dec20, utc, msPerDay; cbn [now LocalTZA];
      repeat split; intros; lia
    | lia | lia ].
Defined.

Example daysUntilFixed_examples :
  getMonth dec20 (todayMidnight dec20) = Num 11 /\
  getDate dec20 (todayMidnight dec20) = Num 20 /\
  daysUntilFixed dec20 12 20 = Num 0 /\
  map (fun g => daysUntilFixed dec20 (GlobalDate.month g) (GlobalDate.day g)) GLOBAL_DATES
  = [Num 56; Num 78; Num 142; Num 304; Num 5].
Proof. repeat split; reflexivity. Qed.

(** Across a change of zone offset the two midnights are not a whole
    number of days apart (here 62 days less one hour), and the rounding
    gives the day count. *)
Example rounding_across_offset_change :
  num_sub (Date_ymd march10 (Num 2027) (Num 4) (Num 11)) (todayMidnight march10)
  = Num (62 * msPerDay - 3600000) /\
  daysUntilFixed march10 5 11 = Num 62 /\
  daysUntil march10 "03-15" = Num 5.
Proof. repeat split; reflexivity. Qed.

(** C5.  [formatAlertText] maps the empty list to the empty string, and
    a non-empty list of alerts (each with [days >= 0]) to their lines
    "<urgency> -- <label>", each line after the first preceded by one
    newline and nothing after the last; the urgency is "TODAY" for 0,
    "In <days> day(s)" from 1 to 3 and "In <days> days" otherwise. *)
Theorem formatAlertText_lines (alerts : list Alert.t) :
  Forall (fun a => 0 <= Alert.days a) alerts ->
  formatAlertText alerts =
  match alerts with
  | [] => ""
  | a :: rest =>
      fold_left (fun text b => text ^^ newline ^^ specLine b) rest (specLine a)
  end.
Proof.
  intros H. destruct alerts as [|a rest]; [reflexivity|].
  unfold formatAlertText. cbn [List.length Nat.eqb map].
  rewrite join_fold.
  inversion H as [|? ? Ha Hrest]; subst.
  rewrite (alertLine_specLine a Ha).
  generalize (specLine a). clear H Ha.
  induction Hrest as [|b rest Hb Hrest IH]; intros s; [reflexivity|].
  cbn [map fold_left]. now rewrite (alertLine_specLine b Hb), IH.
Qed.

Lemma formatAlertText_lines_witness :
  formatAlertText [Alert.mk "Test" 0; Alert.mk "X" 2; Alert.mk "Y" 5] =
  fold_left (fun text b => text ^^ newline ^^ specLine b)
    [Alert.mk "X" 2; Alert.mk "Y" 5] (specLine (Alert.mk "Test" 0)).
Proof.
  apply (formatAlertText_lines [Alert.mk "Test" 0; Alert.mk "X" 2; Alert.mk "Y" 5]).
  repeat constructor; simpl; lia.
Defined.

Example formatAlertText_examples :
  formatAlertText [] = "" /\
  formatAlertText [Alert.mk "Test" 0] = "TODAY -- Test" /\
  formatAlertText [Alert.mk "X" 2] = "In 2 day(s) -- X" /\
  formatAlertText [Alert.mk "Y" 5] = "In 5 days -- Y" /\
  formatAlertText [Alert.mk "X" 2; Alert.mk "Y" 5]
  = "In 2 day(s) -- X" ^^ newline ^^ "In 5 days -- Y".
Proof. repeat split; reflexivity. Qed.

(** An alert with negative [days], which only a malformed date string
    can give, takes the "day(s)" wording. *)
Example formatAlertText_negative :
  daysUntil dec20 "00-15" = Num (-5) /\
  formatAlertText [Alert.mk "Z" (-5)] = "In -5 day(s) -- Z".
Proof. split; reflexivity. Qed.

(** C6.  On data in which no person has a non-empty [ownerEmail], the
    ownership-scoped builder returns, for every subscriber email (a
    string or [null]) and every threshold, exactly the list of the
    broadcast builder. *)
Theorem broadcast_on_legacy_data c maxDays people subscriberEmail :
  Forall (fun p => hasOwner p = false) people ->
  buildAlertsForSubscriber c maxDays people subscriberEmail
  = Ok (buildAlerts c maxDays people).
Proof.
  intros H. rewrite buildAlerts_eq.
  destruct subscriberEmail as [e|].
  - rewrite buildAlertsForSubscriber_eq, filter_all; [reflexivity|].
    eapply Forall_impl; [|exact H]. intros p. apply visibleTo_unowned.
  - now rewrite buildAlertsForSubscriber_null, existsb_none.
Qed.

Lemma broadcast_on_legacy_data_witness :
  buildAlertsForSubscriber dec20 7 [legacyBea] (Some "h@x.com")
  = Ok (buildAlerts dec20 7 [legacyBea]).
Proof.
  apply (broadcast_on_legacy_data dec20 7 [legacyBea] (Some "h@x.com")).
  repeat constructor.
Defined.

(** C7, at the failing input.  Three subscribers all have alerts and the
    provider answers 500 to the first: the second send follows the
    failed first one with no delay in between, so the trace has two
    sends in a row; the delay of 1100 ms only follows the two sends that
    succeeded. *)
Theorem no_delay_after_failed_send :
  snd (run sampleWorld)
  = [ Fetch (payloadFor sampleWorld sampleConfig [ann; legacyBea]
               (Subscriber.mk "Hal" "h@x.com"))
        (Responded 500 "Internal Server Error");
      Fetch (payloadFor sampleWorld sampleConfig [ann; legacyBea]
               (Subscriber.mk "Other" "other@x.com"))
        (Responded 200 "OK");
      Sleep 1100;
      Fetch (payloadFor sampleWorld sampleConfig [ann; legacyBea]
               (Subscriber.mk "Third" "third@x.com"))
        (Responded 200 "OK");
      Sleep 1100 ] /\
  sendsSpaced (snd (run sampleWorld)) = false.
Proof. split; vm_compute; reflexivity. Qed.

(** C8.  In a run that reads a complete configuration and both
    collections, every subscriber with alerts is sent to, in order,
    whatever the provider answered to the earlier sends; the loop ends
    without throwing, [fail] counts the sends that failed and [ok] those
    that succeeded. *)
Theorem failure_isolation w cfg people subs :
  emailConfig w = Ok (Some cfg) -> configComplete cfg = true ->
  wives w = Ok people -> subscribers w = Ok subs ->
  requestsOf (snd (run w))
  = map (payloadFor w cfg people) (filter (hasAlerts w people) subs) /\
  (exists n,
     forSubscribers w cfg people subs (Counters 0 0 0) [] = (Ok n, snd (run w)) /\
     fail n = failedSends (snd (run w)) /\
     ok n = goodSends (snd (run w))) /\
  (forall e, fst (run w) <> Throw e).
Proof.
  intros Hc Hcfg Hw Hs.
  destruct (run_loop w cfg people subs Hc Hcfg Hw Hs) as (n & E & F).
  destruct (forSubscribers_run w cfg people subs (Counters 0 0 0) [])
    as (n' & tr & E' & P & R & Hok & Hfail & Hskip).
  cbn [app] in E'. rewrite E in E'. injection E' as En Et. subst n' tr.
  split; [exact R|]. split.
  - exists n. cbn [ok fail] in *. repeat split; [exact E | lia | lia].
  - intros e. rewrite F. discriminate.
Qed.

Lemma failure_isolation_witness :
  requestsOf (snd (run sampleWorld))
  = map (payloadFor sampleWorld sampleConfig [ann; legacyBea])
      (filter (hasAlerts sampleWorld [ann; legacyBea]) sampleSubscribers) /\
  (exists n,
     forSubscribers sampleWorld sampleConfig [ann; legacyBea] sampleSubscribers
       (Counters 0 0 0) [] = (Ok n, snd (run sampleWorld)) /\
     fail n = failedSends (snd (run sampleWorld)) /\
     ok n = goodSends (snd (run sampleWorld))) /\
  (forall e, fst (run sampleWorld) <> Throw e).
Proof.
  apply (failure_isolation sampleWorld sampleConfig [ann; legacyBea] sampleSubscribers);
    reflexivity.
Defined.

(** The scenario: one of three sends fails, the job exits with 1 and the
    other two subscribers are still sent to. *)
Example one_of_three_fails :
  exitStatus sampleWorld = 1 /\
  map Payload.to_email (requestsOf (snd (run sampleWorld)))
  = ["h@x.com"; "other@x.com"; "third@x.com"] /\
  map (fun ev => match ev with Fetch _ res => fetchFailed res | Sleep _ => false end)
    (filter isSend (snd (run sampleWorld)))
  = [true; false; false].
Proof. vm_compute. repeat split; reflexivity. Qed.

(** C9.  The exit status is 1 exactly when a send failed or an error was
    thrown and not caught, and 0 otherwise; a run whose configuration
    document is absent or incomplete, that finds no subscriber, or in
    which no subscriber has an alert, ends with status 0 and without any
    call to the provider. *)
Theorem exit_status w :
  (exitStatus w = 1 <->
   0 < failedSends (snd (run w)) \/ exists e, fst (run w) = Throw e) /\
  (exitStatus w = 0 \/ exitStatus w = 1) /\
  (emailConfig w = Ok None -> exitStatus w = 0 /\ snd (run w) = []) /\
  (forall cfg, emailConfig w = Ok (Some cfg) -> configComplete cfg = false ->
     exitStatus w = 0 /\ snd (run w) = []) /\
  (forall cfg people, emailConfig w = Ok (Some cfg) -> wives w = Ok people ->
     subscribers w = Ok [] -> exitStatus w = 0 /\ snd (run w) = []) /\
  (forall cfg people subs, emailConfig w = Ok (Some cfg) -> wives w = Ok people ->
     subscribers w = Ok subs ->
     (forall sub, In sub subs -> hasAlerts w people sub = false) ->
     exitStatus w = 0 /\ snd (run w) = []).
Proof.
  split; [|split]; [| |repeat apply conj].
  - unfold exitStatus.
    destruct (run_shape w) as [(e & E)|(n & tr & E & F)]; rewrite E; cbn [fst snd].
    + split; eauto.
    + destruct (Z.gtb_spec (fail n) 0) as [Hpos|Hzero]; split.
      * intros _. left. lia.
      * reflexivity.
      * discriminate.
      * intros [H'|[e H']]; [lia | discriminate].
  - unfold exitStatus.
    destruct (run_shape w) as [(e & E)|(n & tr & E & F)]; rewrite E; cbn [fst].
    + now right.
    + destruct (fail n >? 0); auto.
  - intros H. apply quiet_exit. now apply run_no_config.
  - intros cfg H Hcfg. apply quiet_exit. now apply (run_incomplete_config w cfg).
  - intros cfg people Hc Hw Hs. apply quiet_exit.
    apply (run_no_alerts w cfg people [] Hc Hw Hs). intros sub [].
  - intros cfg people subs Hc Hw Hs Hnone. apply quiet_exit.
    now apply (run_no_alerts w cfg people subs).
Qed.

(** The early exits and the fatal path, each on a concrete run. *)
Example exit_paths :
  let quiet := fun w => (exitStatus w, snd (run w)) = (0, []) in
  quiet (World dec20 None (Ok None) (Ok [ann]) (Ok sampleSubscribers)
           (failingFor "h@x.com")) /\
  quiet (World dec20 None
           (Ok (Some (EmailConfig.mk (Some "svc") (Some "") (Some "pub") None)))
           (Ok [ann]) (Ok sampleSubscribers) (failingFor "h@x.com")) /\
  quiet (World dec20 None (Ok (Some sampleConfig)) (Ok [ann]) (Ok [])
           (failingFor "h@x.com")) /\
  quiet (World (Clock 1780000000000 utc) None (Ok (Some sampleConfig)) (Ok [ann])
           (Ok sampleSubscribers) (failingFor "h@x.com")) /\
  exitStatus (World dec20 None (Ok (Some sampleConfig))
                (Throw (Error "UNAVAILABLE")) (Ok sampleSubscribers)
                (failingFor "h@x.com")) = 1.
Proof. vm_compute. repeat split; reflexivity. Qed.

(** C10.  The loop over the subscribers, started with the three counters
    at 0, ends (it never throws) with [ok + skipped + fail] equal to the
    number of subscribers. *)
Theorem counters_partition w cfg people subs tr0 :
  exists n tr,
    forSubscribers w cfg people subs (Counters 0 0 0) tr0 = (Ok n, tr) /\
    ok n + skipped n + fail n = Z.of_nat (List.length subs).
Proof.
  destruct (forSubscribers_run w cfg people subs (Counters 0 0 0) tr0)
    as (n & tr & E & P & R & Hok & Hfail & Hskip).
  exists n, (tr0 ++ tr). split; [exact E|].
  pose proof (sends_counted tr) as Hc.
  rewrite R, length_map in Hc.
  pose proof (filter_partition_length (hasAlerts w people) subs).
  cbn [ok fail skipped] in *. lia.
Qed.

(** ** Further properties of the code *)

(** *** The distance to the next occurrence *)

Lemma leap_years_apart y : DaysInYear y = 366 -> DaysInYear (y + 1) = 365.
Proof.
  unfold DaysInYear.
  destruct (Z.eqb_spec (y mod 4) 0) as [E|E]; cbn [negb]; [|discriminate].
  intros _.
  destruct (Z.eqb_spec ((y + 1) mod 4) 0) as [E'|E']; cbn [negb]; [|reflexivity].
  exfalso. revert E E'. Z.div_mod_to_equations. lia.
Qed.

Lemma monthStart_leap m : 0 <= m <= 11 ->
  0 <= monthStart m 0 <= 334 /\
  monthStart m 0 <= monthStart m 1 <= monthStart m 0 + 1.
Proof.
  intros H. unfold monthStart.
  destruct m as [|p|p]; try lia; repeat (destruct p; try lia).
Qed.

Lemma MakeDay_in_year y m d : 0 <= m <= 11 ->
  MakeDay y m d
  = DayFromYear y + monthStart m (if DaysInYear y =? 366 then 1 else 0) + d - 1.
Proof.
  intros H. unfold MakeDay. rewrite Z.div_small, Z.mod_small by lia.
  now rewrite Z.add_0_r.
Qed.

Lemma MakeDay_next_year y m d : 0 <= m <= 11 ->
  MakeDay y m d + 365 <= MakeDay (y + 1) m d <= MakeDay y m d + 366.
Proof.
  intros H. rewrite !MakeDay_in_year by assumption.
  rewrite DayFromYear_step.
  pose proof (monthStart_leap m H) as (_ & L).
  destruct (DaysInYear_cases y) as [E|E]; rewrite E.
  - cbn [Z.eqb Pos.eqb].
    destruct (DaysInYear (y + 1) =? 366); lia.
  - rewrite (leap_years_apart y E). cbn [Z.eqb Pos.eqb]. lia.
Qed.

Lemma nextOccurrence_within_year c month day :
  clock_ok c -> 1 <= month <= 12 -> 1 <= day <= 31 ->
  0 <= nextOccurrence c month day - today c <= 365.
Proof.
  intros Hc Hm Hd.
  destruct (daysUntilFixed_value c Hc month day Hm Hd) as [_ N].
  split; [exact N|].
  pose proof (thisYear_bounds c Hc) as (_ & Hlo & _).
  assert (Hm' : 0 <= month - 1 <= 11) by lia.
  pose proof (MakeDay_next_year (thisYear c) (month - 1) day Hm') as Hn.
  pose proof (MakeDay_in_year (thisYear c) (month - 1) day Hm') as Hy.
  pose proof (monthStart_leap (month - 1) Hm') as (B & L).
  unfold nextOccurrence.
  destruct (Z.ltb_spec (MakeDay (thisYear c) (month - 1) day) (today c)); [lia|].
  rewrite Hy. destruct (DaysInYear (thisYear c) =? 366); lia.
Qed.

(** *** Dates that are not dates *)

Lemma Date_ymd_NaN c y m : Date_ymd c y m NaN = NaN.
Proof. now destruct y, m. Qed.

Lemma daysUntil_one_field c s : hyphenFree s = true -> daysUntil c s = NaN.
Proof.
  intros H. unfold daysUntil. rewrite (split_hyphenFree s H).
  cbn [map List.length Nat.eqb nth]. now rewrite !Date_ymd_NaN.
Qed.

(** *** What the builders list *)

Lemma in_dueAlert maxDays label d a :
  In a (dueAlert maxDays label d) <->
  d = Num (Alert.days a) /\ Alert.days a <= maxDays /\ Alert.label a = label.
Proof.
  unfold dueAlert. destruct d as [|n].
  - split; [intros [] | intros (H & _); discriminate].
  - destruct (Z.leb_spec n maxDays) as [Hle|Hgt].
    + split.
      * intros [<-|[]]. cbn. auto.
      * intros (E & _ & L). injection E as ->. destruct a as [l n']. cbn in *.
        subst. now left.
    + split; [intros [] | intros (E & Hle & _); injection E as ->; lia].
Qed.

Lemma in_globalAlerts c maxDays a :
  In a (globalAlerts c maxDays) <->
  Alert.days a <= maxDays /\
  exists g, In g GLOBAL_DATES /\ Alert.label a = GlobalDate.name g /\
            daysUntilFixed c (GlobalDate.month g) (GlobalDate.day g) = Num (Alert.days a).
Proof.
  unfold globalAlerts. rewrite in_flat_map. split.
  - intros (g & Hg & Ha). apply in_dueAlert in Ha as (E & L & N). eauto.
  - intros (L & g & Hg & N & E). exists g. split; [assumption|].
    apply in_dueAlert. auto.
Qed.

Lemma in_personAlerts c maxDays p a :
  In a (personAlerts c maxDays p) <->
  Alert.days a <= maxDays /\
  exists dt, In dt (datesOf p) /\ Alert.label a = Dated.label dt /\
             daysUntil c (Dated.val dt) = Num (Alert.days a).
Proof.
  unfold personAlerts. rewrite in_flat_map. split.
  - intros (dt & Hdt & Ha). apply in_dueAlert in Ha as (E & L & N). eauto.
  - intros (L & dt & Hdt & N & E). exists dt. split; [assumption|].
    apply in_dueAlert. auto.
Qed.

Lemma in_sorted_alerts c maxDays (visible : list Person.t) a :
  In a (sort byDays
          (globalAlerts c maxDays ++ flat_map (personAlerts c maxDays) visible)) <->
  Alert.days a <= maxDays /\
  ((exists g, In g GLOBAL_DATES /\ Alert.label a = GlobalDate.name g /\
              daysUntilFixed c (GlobalDate.month g) (GlobalDate.day g)
              = Num (Alert.days a)) \/
   (exists p dt, In p visible /\ In dt (datesOf p) /\
                 Alert.label a = Dated.label dt /\
                 daysUntil c (Dated.val dt) = Num (Alert.days a))).
Proof.
  split.
  - intros Hin. apply (Permutation_in _ (sort_perm byDays _)) in Hin.
    apply in_app_or in Hin as [Hg|Hp].
    + apply in_globalAlerts in Hg as (L & Hg). auto.
    + apply in_flat_map in Hp as (p & Hp & Ha).
      apply in_personAlerts in Ha as (L & dt & Hdt & N & E).
      split; [assumption|]. right. now exists p, dt.
  - intros (L & H). apply (Permutation_in _ (Permutation_sym (sort_perm byDays _))).
    apply in_or_app. destruct H as [Hg|(p & dt & Hp & Hdt & N & E)].
    + left. apply in_globalAlerts. auto.
    + right. apply in_flat_map. exists p. split; [assumption|].
      apply in_personAlerts. eauto.
Qed.

(** *** Changing the threshold *)

Lemma sort_insert_front x l :
  match l with [] => True | y :: _ => Alert.days x <= Alert.days y end ->
  sort_insert byDays x l = x :: l.
Proof.
  destruct l as [|y l]; [reflexivity|]. intros H. cbn [sort_insert].
  unfold byDays. now destruct (Z.leb_spec (Alert.days x - Alert.days y) 0); [|lia].
Qed.

Lemma filter_sort_insert (f : Alert.t -> bool) x l :
  StronglySorted daysOrdered l ->
  filter f (sort_insert byDays x l)
  = if f x then sort_insert byDays x (filter f l) else filter f l.
Proof.
  induction 1 as [|y l Hs IH Hy].
  - cbn. now destruct (f x).
  - cbn [sort_insert]. unfold byDays at 1.
    destruct (Z.leb_spec (Alert.days x - Alert.days y) 0) as [Hle|Hgt].
    + cbn [filter]. destruct (f x); [|reflexivity].
      destruct (f y).
      * cbn [sort_insert]. unfold byDays.
        now destruct (Z.leb_spec (Alert.days x - Alert.days y) 0); [|lia].
      * symmetry. apply sort_insert_front.
        destruct (filter f l) as [|z l'] eqn:E; [exact I|].
        assert (Hz : In z (filter f l)) by (rewrite E; now left).
        apply filter_In in Hz as [Hz _].
        rewrite Forall_forall in Hy. specialize (Hy z Hz).
        unfold daysOrdered in Hy. lia.
    + cbn [filter]. rewrite IH. destruct (f x), (f y); try reflexivity.
      cbn [sort_insert]. unfold byDays.
      now destruct (Z.leb_spec (Alert.days x - Alert.days y) 0); [lia|].
Qed.

Lemma filter_sort (f : Alert.t -> bool) l :
  filter f (sort byDays l) = sort byDays (filter f l).
Proof.
  induction l as [|x l IH]; [reflexivity|].
  cbn [sort filter]. rewrite filter_sort_insert by apply sort_sorted.
  rewrite IH. now destruct (f x).
Qed.

Lemma filter_flat_map {A B : Type} (f : B -> bool) (g : A -> list B) (l : list A) :
  filter f (flat_map g l) = flat_map (fun x => filter f (g x)) l.
Proof.
  induction l as [|x l IH]; [reflexivity|].
  cbn [flat_map]. now rewrite filter_app, IH.
Qed.

Lemma dueAlert_lower maxDays maxDays' label d :
  maxDays <= maxDays' ->
  dueAlert maxDays label d = filter (dueWithin maxDays) (dueAlert maxDays' label d).
Proof.
  intros H. unfold dueAlert, dueWithin. destruct d as [|n]; [reflexivity|].
  destruct (Z.leb_spec n maxDays'), (Z.leb_spec n maxDays); cbn; try reflexivity; try lia.
  - now destruct (Z.leb_spec n maxDays); [|lia].
  - now destruct (Z.leb_spec n maxDays); [lia|].
Qed.

Lemma inserted_lower c maxDays maxDays' (visible : list Person.t) :
  maxDays <= maxDays' ->
  globalAlerts c maxDays ++ flat_map (personAlerts c maxDays) visible
  = filter (dueWithin maxDays)
      (globalAlerts c maxDays' ++ flat_map (personAlerts c maxDays') visible).
Proof.
  intros H. rewrite filter_app. f_equal.
  - unfold globalAlerts. rewrite filter_flat_map.
    apply flat_map_ext. intros g. now apply dueAlert_lower.
  - rewrite filter_flat_map. apply flat_map_ext. intros p.
    unfold personAlerts. rewrite filter_flat_map.
    apply flat_map_ext. intros dt. now apply dueAlert_lower.
Qed.

(** *** Well-formed dates *)

Lemma daysUntil_wellFormed c s :
  clock_ok c -> wellFormedDate s ->
  exists n, daysUntil c s = Num n /\ 0 <= n <= 365.
Proof.
  intros Hc (month & day & Hm & Hd & Hs).
  destruct (daysUntilFixed_value c Hc month day Hm Hd) as [V _].
  pose proof (nextOccurrence_within_year c month day Hc Hm Hd) as B.
  exists (nextOccurrence c month day - today c). split; [|exact B].
  destruct Hs as [->|(yearField & Hy & ->)].
  - now rewrite daysUntil_fixed.
  - destruct (pad2_field month ltac:(lia)) as [Hm1 _].
    destruct (pad2_field day ltac:(lia)) as [Hd1 _].
    now rewrite daysUntil_three_fields, daysUntil_fixed.
Qed.

Lemma holidays_in_range :
  Forall (fun g => 1 <= GlobalDate.month g <= 12 /\ 1 <= GlobalDate.day g <= 31)
    GLOBAL_DATES.
Proof. repeat constructor; cbn; lia. Qed.

Lemma alerts_in_range c maxDays (visible : list Person.t) :
  clock_ok c -> Forall wellFormedPerson visible ->
  Forall (fun a => 0 <= Alert.days a <= 365 /\ Alert.days a <= maxDays)
    (sort byDays
       (globalAlerts c maxDays ++ flat_map (personAlerts c maxDays) visible)).
Proof.
  intros Hc Hw. apply Forall_forall. intros a Ha.
  apply in_sorted_alerts in Ha as (L & [(g & Hg & _ & E)|(p & dt & Hp & Hdt & _ & E)]).
  - pose proof holidays_in_range as R. rewrite Forall_forall in R.
    destruct (R g Hg) as [Hm Hd].
    destruct (daysUntilFixed_value c Hc _ _ Hm Hd) as [V _].
    pose proof (nextOccurrence_within_year c _ _ Hc Hm Hd) as B.
    rewrite V in E. injection E as E. lia.
  - rewrite Forall_forall in Hw. pose proof (Hw p Hp) as Wp.
    unfold wellFormedPerson in Wp. rewrite Forall_forall in Wp.
    destruct (daysUntil_wellFormed c _ Hc (Wp dt Hdt)) as (n & V & B).
    rewrite V in E. injection E as E. lia.
Qed.

Lemma Forall_filter_keep {A : Type} (P : A -> Prop) (f : A -> bool) (l : list A) :
  Forall P l -> Forall P (filter f l).
Proof.
  intros H. apply Forall_forall. intros x Hx. apply filter_In in Hx as [Hx _].
  rewrite Forall_forall in H. auto.
Qed.

(** *** The start of the day *)

Lemma todayMidnight_again c : clock_ok c ->
  setHours c (todayMidnight c) 0 0 0 0 = todayMidnight c.
Proof.
  intros Hc. pose proof (todayMidnight_value c Hc) as V.
  rewrite V at 1. unfold setHours. rewrite (midnight_day c Hc).
  rewrite V. unfold todayMidnight, Date_now, setHours in V |- *.
  fold (today c) in V. exact V.
Qed.

Lemma todayMidnight_same_date c : clock_ok c ->
  getFullYear c (todayMidnight c) = getFullYear c (Date_now c) /\
  getMonth c (todayMidnight c) = getMonth c (Date_now c) /\
  getDate c (todayMidnight c) = getDate c (Date_now c).
Proof.
  intros Hc. rewrite (todayMidnight_value c Hc).
  unfold getFullYear, getMonth, getDate, Date_now.
  destruct (fields_of_day (LocalTime c (UTC c (today c * msPerDay)))
              (LocalTime c (now c))) as (Ey & Em & Ed).
  { now rewrite (midnight_day c Hc). }
  now rewrite Ey, Em, Ed.
Qed.

(** *** One send *)

Lemma sendEmailViaREST_run w toEmail text cfg sub tr :
  Subscriber.email sub = toEmail ->
  let req := broadcastPayload w cfg text sub in
  let res := provider w tr req in
  sendEmailViaREST w toEmail text cfg tr
  = (match res with
     | Responded status body =>
         if response_ok status then Ok tt
         else Throw (Error ("EmailJS " ^^ toString status ^^ ": " ^^ body))
     | Rejected e => Throw e
     end,
     tr ++ [Fetch req res]).
Proof.
  intros <-. cbv zeta.
  unfold sendEmailViaREST, fetch, throw, ret, push, bind, broadcastPayload.
  destruct (provider w tr _) as [status body|e]; [|reflexivity].
  now destruct (response_ok status).
Qed.

Lemma from_name_nonempty w cfg text sub :
  Payload.from_name (broadcastPayload w cfg text sub) <> "".
Proof.
  unfold broadcastPayload. cbn [Payload.from_name].
  destruct (EmailConfig.sender cfg) as [[|ch s]|]; discriminate.
Qed.

(** *** Delays and sends *)

Lemma paced_sleeps tr : paced tr -> sleepsOf tr = goodSends tr.
Proof.
  induction 1 as [|req res tr F P IH|req res tr F P IH].
  - reflexivity.
  - rewrite goodSends_fetch, goodSends_sleep, F, <- IH.
    unfold sleepsOf. cbn [filter isSend negb List.length]. lia.
  - rewrite goodSends_fetch, F, <- IH. reflexivity.
Qed.

Lemma paced_delays tr : paced tr -> forall ms, In (Sleep ms) tr -> ms = 1100.
Proof.
  induction 1 as [|req res tr F P IH|req res tr F P IH]; intros ms Hin.
  - destruct Hin.
  - destruct Hin as [E|[E|Hin]]; [discriminate | now injection E | auto].
  - destruct Hin as [E|Hin]; [discriminate | auto].
Qed.

(** *** What is sent *)

Lemma alertLine_nonempty a : exists ch s, alertLine a = String ch s.
Proof.
  unfold alertLine.
  destruct (Alert.days a =? 0); [|destruct (Alert.days a <=? 3)]; cbn; eauto.
Qed.

Lemma formatAlertText_nonempty alerts : alerts <> [] -> formatAlertText alerts <> "".
Proof.
  destruct alerts as [|a rest]; [congruence|]. intros _.
  unfold formatAlertText. cbn [List.length Nat.eqb map].
  destruct (alertLine_nonempty a) as (ch & s & ->).
  destruct (map alertLine rest); cbn; discriminate.
Qed.

Lemma hasAlerts_nonempty w people sub :
  hasAlerts w people sub = true -> alertsFor w people sub <> [].
Proof.
  unfold hasAlerts. destruct (alertsFor w people sub); [discriminate|discriminate].
Qed.

Lemma run_requests w req :
  In req (requestsOf (snd (run w))) ->
  exists cfg people subs sub,
    emailConfig w = Ok (Some cfg) /\ configComplete cfg = true /\
    wives w = Ok people /\ subscribers w = Ok subs /\
    In sub subs /\ hasAlerts w people sub = true /\
    req = payloadFor w cfg people sub.
Proof.
  intros Hin. pose proof (run_cases w) as C.
  destruct (emailConfig w) as [[cfg|]|e] eqn:Hc;
    try (rewrite C in Hin; destruct Hin).
  destruct (configComplete cfg) eqn:Hcfg; cbn [negb] in C;
    [|rewrite C in Hin; destruct Hin].
  destruct (wives w) as [people|e] eqn:Hw; [|rewrite C in Hin; destruct Hin].
  destruct (subscribers w) as [subs|e] eqn:Hs; [|rewrite C in Hin; destruct Hin].
  destruct (run_loop w cfg people subs Hc Hcfg Hw Hs) as (n & E & F).
  destruct (forSubscribers_run w cfg people subs (Counters 0 0 0) [])
    as (n' & tr & E' & _ & R & _).
  cbn [app] in E'. rewrite E in E'. injection E' as En Et.
  rewrite Et, R in Hin. apply in_map_iff in Hin as (sub & <- & Hsub).
  apply filter_In in Hsub as [Hsub Ha].
  exists cfg, people, subs, sub. auto 10.
Qed.

(** *** The earlier revision *)

Lemma broadcast_step w cfg text sub rest n tr :
  Broadcast.forSubscribers w cfg text (sub :: rest) n tr =
  let req := broadcastPayload w cfg text sub in
  let res := provider w tr req in
  if fetchFailed res
  then Broadcast.forSubscribers w cfg text rest
         (Broadcast.Counters (Broadcast.ok n) (Broadcast.fail n + 1))
         (tr ++ [Fetch req res])
  else Broadcast.forSubscribers w cfg text rest
         (Broadcast.Counters (Broadcast.ok n + 1) (Broadcast.fail n))
         (tr ++ [Fetch req res; Sleep 1100]).
Proof.
  cbn [Broadcast.forSubscribers].
  unfold bind at 1. unfold tryCatch. unfold bind at 1.
  rewrite (sendEmailViaREST_run w _ text cfg sub tr eq_refl). cbv zeta.
  destruct (provider w tr (broadcastPayload w cfg text sub)) as [status body|e];
    cbn [fetchFailed]; [|reflexivity].
  destruct (response_ok status); cbn [negb]; [|reflexivity].
  unfold bind, sleep, ret, push. now rewrite <- app_assoc.
Qed.

Lemma broadcast_loop w cfg text subs :
  forall n tr, exists n' tr',
    Broadcast.forSubscribers w cfg text subs n tr = (Ok n', tr ++ tr') /\
    paced tr' /\
    requestsOf tr' = map (broadcastPayload w cfg text) subs /\
    Broadcast.ok n' = Broadcast.ok n + goodSends tr' /\
    Broadcast.fail n' = Broadcast.fail n + failedSends tr'.
Proof.
  induction subs as [|sub rest IH]; intros n tr.
  - exists n, []. cbn [Broadcast.forSubscribers ret map].
    rewrite app_nil_r. change (goodSends []) with 0. change (failedSends []) with 0.
    repeat split; try constructor; lia.
  - rewrite broadcast_step. cbv zeta.
    set (req := broadcastPayload w cfg text sub).
    set (res := provider w tr req).
    destruct (fetchFailed res) eqn:F.
    + destruct (IH (Broadcast.Counters (Broadcast.ok n) (Broadcast.fail n + 1))
                  (tr ++ [Fetch req res]))
        as (n' & tr' & E & P & R & Hok & Hfail).
      cbn [Broadcast.ok Broadcast.fail] in Hok, Hfail.
      exists n', (Fetch req res :: tr').
      rewrite E, <- app_assoc, goodSends_fetch, failedSends_fetch, F.
      cbn [app map].
      repeat split; try assumption; try lia.
      * now apply paced_failed.
      * unfold requestsOf in *. cbn [flat_map app]. now rewrite R.
    + destruct (IH (Broadcast.Counters (Broadcast.ok n + 1) (Broadcast.fail n))
                  (tr ++ [Fetch req res; Sleep 1100]))
        as (n' & tr' & E & P & R & Hok & Hfail).
      cbn [Broadcast.ok Broadcast.fail] in Hok, Hfail.
      exists n', (Fetch req res :: Sleep 1100 :: tr').
      rewrite E, <- app_assoc, goodSends_fetch, failedSends_fetch, F,
        goodSends_sleep, failedSends_sleep.
      cbn [app map].
      repeat split; try assumption; try lia.
      * now apply paced_sent.
      * unfold requestsOf in *. cbn [flat_map app]. now rewrite R.
Qed.

Lemma broadcast_cases w :
  Broadcast.run w =
  match emailConfig w with
  | Throw e => (Throw e, [])
  | Ok None => (Ok Returned, [])
  | Ok (Some cfg) =>
      if negb (configComplete cfg) then (Ok Returned, [])
      else
        match wives w with
        | Throw e => (Throw e, [])
        | Ok people =>
            let alerts := buildAlerts (w_clock w) 7 people in
            if (List.length alerts =? 0)%nat then (Ok Returned, [])
            else
              match subscribers w with
              | Throw e => (Throw e, [])
              | Ok subs =>
                  if (List.length subs =? 0)%nat then (Ok Returned, [])
                  else
                    match Broadcast.forSubscribers w cfg (formatAlertText alerts) subs
                            (Broadcast.Counters 0 0) [] with
                    | (Ok n, tr) =>
                        (Ok (if Broadcast.fail n >? 0 then Exited 1 else Returned), tr)
                    | (Throw e, tr) => (Throw e, tr)
                    end
              end
        end
  end.
Proof.
  unfold Broadcast.run, Broadcast.main, bind, lift, ret, configComplete.
  destruct (emailConfig w) as [[cfg|]|e]; try reflexivity.
  destruct (truthy (EmailConfig.serviceId cfg)),
           (truthy (EmailConfig.templateId cfg)),
           (truthy (EmailConfig.pubKey cfg)); cbn [negb orb andb]; try reflexivity.
  destruct (wives w) as [people|e]; [|reflexivity].
  cbv zeta.
  destruct (List.length (buildAlerts (w_clock w) 7 people) =? 0)%nat; [reflexivity|].
  destruct (subscribers w) as [subs|e]; [|reflexivity].
  destruct (List.length subs =? 0)%nat; [reflexivity|].
  destruct (Broadcast.forSubscribers w cfg _ subs (Broadcast.Counters 0 0) [])
    as [[n|e] tr]; [|reflexivity].
  now destruct (Broadcast.fail n >? 0).
Qed.

(** A run of the earlier revision that has alerts and reads the
    subscribers. *)
Lemma broadcast_run w cfg people subs :
  emailConfig w = Ok (Some cfg) -> configComplete cfg = true ->
  wives w = Ok people -> buildAlerts (w_clock w) 7 people <> [] ->
  subscribers w = Ok subs ->
  exists n tr,
    Broadcast.run w
    = (Ok (if Broadcast.fail n >? 0 then Exited 1 else Returned), tr) /\
    paced tr /\
    requestsOf tr
    = map (broadcastPayload w cfg
             (formatAlertText (buildAlerts (w_clock w) 7 people))) subs /\
    Broadcast.ok n = goodSends tr /\ Broadcast.fail n = failedSends tr.
Proof.
  intros Hc Hcfg Hw Ha Hs.
  destruct (broadcast_loop w cfg
              (formatAlertText (buildAlerts (w_clock w) 7 people)) subs
              (Broadcast.Counters 0 0) [])
    as (n & tr & E & P & R & Hok & Hfail).
  cbn [app Broadcast.ok Broadcast.fail] in *.
  exists n, tr. rewrite broadcast_cases, Hc, Hcfg, Hw, Hs. cbn [negb]. cbv zeta.
  destruct (buildAlerts (w_clock w) 7 people) as [|a alerts] eqn:Eb; [congruence|].
  cbn [List.length Nat.eqb].
  destruct subs as [|sub rest].
  - cbn in E. injection E as <- <-. cbn. repeat split; auto.
  - cbn [List.length Nat.eqb]. rewrite E. repeat split; auto; lia.
Qed.

(** The loops of the two revisions agree when every subscriber is due
    the same, non-empty, list of alerts. *)
Lemma loops_agree w cfg people alerts subs :
  alerts <> [] ->
  (forall sub, In sub subs -> alertsFor w people sub = alerts) ->
  forall n tr,
    match forSubscribers w cfg people subs n tr,
          Broadcast.forSubscribers w cfg (formatAlertText alerts) subs
            (Broadcast.Counters (ok n) (fail n)) tr with
    | (Ok n', tr'), (Ok m', tr'') =>
        tr' = tr'' /\ ok n' = Broadcast.ok m' /\ fail n' = Broadcast.fail m' /\
        skipped n' = skipped n
    | _, _ => False
    end.
Proof.
  intros Hne. induction subs as [|sub rest IH]; intros Hall n tr.
  - cbn. auto.
  - rewrite forSubscribers_step, broadcast_step.
    assert (Ha : alertsFor w people sub = alerts) by (apply Hall; now left).
    assert (Hh : hasAlerts w people sub = true).
    { unfold hasAlerts. rewrite Ha. destruct alerts; [congruence|reflexivity]. }
    rewrite Hh. cbv zeta.
    unfold payloadFor. rewrite Ha. fold (broadcastPayload w cfg (formatAlertText alerts) sub).
    assert (Hrest : forall s, In s rest -> alertsFor w people s = alerts)
      by (intros s Hin; apply Hall; now right).
    destruct (fetchFailed (provider w tr _)).
    + apply (IH Hrest (Counters (ok n) (fail n + 1) (skipped n))).
    + apply (IH Hrest (Counters (ok n + 1) (fail n) (skipped n))).
Qed.

Lemma alertsFor_unowned w people sub :
  Forall (fun p => hasOwner p = false) people ->
  alertsFor w people sub = buildAlerts (w_clock w) 7 people.
Proof.
  intros H. unfold alertsFor. rewrite buildAlerts_eq, filter_all; [reflexivity|].
  eapply Forall_impl; [|exact H]. intros p. apply visibleTo_unowned.
Qed.

Lemma revisions_agree w :
  (forall people, wives w = Ok people -> Forall (fun p => hasOwner p = false) people) ->
  (forall e, subscribers w <> Throw e) ->
  Broadcast.run w = run w.
Proof.
  intros Hleg Hsubs.
  rewrite broadcast_cases, run_cases.
  destruct (emailConfig w) as [[cfg|]|e] eqn:Hc; try reflexivity.
  destruct (configComplete cfg) eqn:Hcfg; cbn [negb]; [|reflexivity].
  destruct (wives w) as [people|e] eqn:Hw; [|reflexivity].
  destruct (subscribers w) as [subs|e] eqn:Hs; [|now destruct (Hsubs e)].
  specialize (Hleg people eq_refl). cbv zeta.
  destruct (buildAlerts (w_clock w) 7 people) as [|a alerts] eqn:Eb.
  - cbn [List.length Nat.eqb].
    destruct (List.length subs =? 0)%nat eqn:El.
    + reflexivity.
    + pose proof (run_no_alerts w cfg people subs Hc Hw Hs) as Q.
      rewrite run_cases, Hc, Hcfg, Hw, Hs, El in Q. cbn [negb] in Q.
      symmetry. apply Q. intros sub _. unfold hasAlerts.
      now rewrite alertsFor_unowned, Eb.
  - cbn [List.length Nat.eqb].
    destruct (List.length subs =? 0)%nat; [reflexivity|].
    pose proof (loops_agree w cfg people (a :: alerts) subs ltac:(discriminate)) as L.
    specialize (L (fun sub _ => eq_trans (alertsFor_unowned w people sub Hleg) Eb)
                  (Counters 0 0 0) []).
    cbn [ok fail] in L.
    destruct (forSubscribers w cfg people subs (Counters 0 0 0) []) as [[n|e] tr];
    destruct (Broadcast.forSubscribers w cfg _ subs (Broadcast.Counters 0 0) [])
      as [[m|e'] tr']; try contradiction.
    destruct L as (-> & _ & -> & _). reflexivity.
Qed.

(** *** Lines of the digest *)

Lemma lacks_append sep a b : lacks sep (a ^^ b) = lacks sep a && lacks sep b.
Proof.
  induction a as [|ch a IH]; [reflexivity|].
  cbn [append lacks]. now rewrite IH, andb_assoc.
Qed.

Lemma split_lacks sep s : lacks sep s = true -> split sep s = [s].
Proof.
  induction s as [|ch rest IH]; cbn [lacks split]; [reflexivity|].
  intros H. apply andb_true_iff in H as [Hch Hrest].
  apply negb_true_iff in Hch. now rewrite Hch, (IH Hrest).
Qed.

Lemma split_line sep s rest :
  lacks sep s = true -> split sep (s ^^ String sep rest) = s :: split sep rest.
Proof.
  induction s as [|ch s' IH]; cbn [lacks append].
  - intros _. cbn [split]. now rewrite Ascii.eqb_refl.
  - intros H. apply andb_true_iff in H as [Hch Hrest].
    apply negb_true_iff in Hch. cbn [split]. now rewrite Hch, (IH Hrest).
Qed.

Lemma split_join sep x xs :
  Forall (fun s => lacks sep s = true) (x :: xs) ->
  split sep (join (String sep EmptyString) (x :: xs)) = x :: xs.
Proof.
  revert x. induction xs as [|y xs IH]; intros x H.
  - cbn [join]. apply split_lacks. now inversion H.
  - change (join (String sep "") (x :: y :: xs))
      with (x ^^ String sep (join (String sep "") (y :: xs))).
    inversion H as [|? ? Hx Hrest]; subst.
    now rewrite (split_line sep x _ Hx), (IH y Hrest).
Qed.

Lemma digits_lack sep d :
  (Nat.leb 48 (nat_of_ascii sep) && Nat.leb (nat_of_ascii sep) 57)%bool = false ->
  lacks sep (NilEmpty.string_of_uint d) = true.
Proof.
  intros Hsep.
  assert (D : forall ch, (Nat.leb 48 (nat_of_ascii ch) && Nat.leb (nat_of_ascii ch) 57)%bool = true ->
              Ascii.eqb ch sep = false).
  { intros ch Hch. destruct (Ascii.eqb_spec ch sep) as [->|]; [congruence|reflexivity]. }
  induction d as [|d IH|d IH|d IH|d IH|d IH|d IH|d IH|d IH|d IH|d IH];
    cbn [NilEmpty.string_of_uint lacks]; [reflexivity|..];
    rewrite IH, D by reflexivity; reflexivity.
Qed.

Lemma toString_lacks_newline z : lacks (ascii_of_nat 10) (toString z) = true.
Proof.
  unfold toString, NilZero.string_of_int.
  destruct (Z.to_int z) as [d|d]; unfold NilZero.string_of_uint.
  - destruct d; try reflexivity; now apply digits_lack.
  - cbn [lacks]. destruct d; try reflexivity;
      (rewrite digits_lack; [reflexivity|reflexivity]).
Qed.

Lemma alertLine_lacks_newline a :
  lacks (ascii_of_nat 10) (Alert.label a) = true ->
  lacks (ascii_of_nat 10) (alertLine a) = true.
Proof.
  intros H. unfold alertLine.
  destruct (Alert.days a =? 0); [|destruct (Alert.days a <=? 3)];
    rewrite !lacks_append, ?toString_lacks_newline, H; reflexivity.
Qed.

Lemma formatAlertText_split alerts :
  alerts <> [] ->
  Forall (fun a => lacks (ascii_of_nat 10) (Alert.label a) = true) alerts ->
  split (ascii_of_nat 10) (formatAlertText alerts) = map alertLine alerts.
Proof.
  destruct alerts as [|a rest]; [congruence|]. intros _ H.
  unfold formatAlertText. cbn [List.length Nat.eqb].
  change newline with (String (ascii_of_nat 10) EmptyString).
  cbn [map]. apply split_join. rewrite <- map_cons.
  apply Forall_map. eapply Forall_impl; [|exact H].
  intros b. apply alertLine_lacks_newline.
Qed.

(** *** Fields that cannot be numbers *)

Lemma foreignChar_facts ch :
  foreignChar ch = true ->
  is_space ch = false /\ digit_value ch = None /\ ch <> "+"%char /\ ch <> "-"%char.
Proof.
  destruct ch as [[] [] [] [] [] [] [] []]; vm_compute;
    intros H; try discriminate H; repeat split; discriminate.
Qed.

Lemma trim_start_foreign s : hasForeignChar s = true -> hasForeignChar (trim_start s) = true.
Proof.
  induction s as [|ch rest IH]; [discriminate|].
  intros H. cbn [trim_start]. destruct (is_space ch) eqn:Sp; [|exact H].
  cbn [hasForeignChar] in H. apply orb_true_iff in H as [F|F]; [|now apply IH].
  apply foreignChar_facts in F as (F & _). congruence.
Qed.

Lemma trim_end_foreign s : hasForeignChar s = true -> hasForeignChar (trim_end s) = true.
Proof.
  induction s as [|ch rest IH]; [discriminate|].
  intros H. cbn [trim_end hasForeignChar] in *.
  apply orb_true_iff in H as [F|F].
  - destruct (foreignChar_facts ch F) as (Sp & _).
    destruct (trim_end rest); [rewrite Sp|]; cbn [hasForeignChar]; now rewrite F.
  - specialize (IH F). destruct (trim_end rest) as [|ch' r']; [discriminate|].
    cbn [hasForeignChar] in *. rewrite IH. apply orb_true_r.
Qed.

Lemma digits_value_foreign s : forall acc,
  hasForeignChar s = true -> digits_value acc s = None.
Proof.
  induction s as [|ch rest IH]; intros acc H; [discriminate|].
  cbn [digits_value hasForeignChar] in *.
  apply orb_true_iff in H as [F|F].
  - destruct (foreignChar_facts ch F) as (_ & D & _). now rewrite D.
  - destruct (digit_value ch); [now apply IH | reflexivity].
Qed.

Lemma unsigned_value_foreign s : hasForeignChar s = true -> unsigned_value s = NaN.
Proof.
  intros H. unfold unsigned_value. destruct s as [|ch rest]; [reflexivity|].
  now rewrite digits_value_foreign.
Qed.

Lemma Number_foreign s : hasForeignChar s = true -> Number_ s = NaN.
Proof.
  intros H. apply trim_start_foreign, trim_end_foreign in H.
  unfold Number_. destruct (trim_end (trim_start s)) as [|ch rest]; [discriminate|].
  destruct (Ascii.eqb_spec ch "+") as [->|Np].
  - cbn [hasForeignChar] in H. apply unsigned_value_foreign. exact H.
  - destruct (Ascii.eqb_spec ch "-") as [->|Nm].
    + cbn [hasForeignChar] in H. now rewrite unsigned_value_foreign.
    + transitivity (unsigned_value (String ch rest)); [|now apply unsigned_value_foreign].
      destruct ch as [[] [] [] [] [] [] [] []]; try reflexivity; congruence.
Qed.

Lemma nth_Number parts i :
  nth i (map Number_ parts) NaN
  = match nth_error parts i with Some f => Number_ f | None => NaN end.
Proof.
  revert i. induction parts as [|p parts IH]; intros [|i]; cbn; auto.
Qed.

Lemma unreadable_NaN parts i :
  unreadable (nth_error parts i) = true -> nth i (map Number_ parts) NaN = NaN.
Proof.
  rewrite nth_Number. destruct (nth_error parts i); [apply Number_foreign|reflexivity].
Qed.

Lemma Date_ymd_NaN_month c y d : Date_ymd c y NaN d = NaN.
Proof. now destruct y. Qed.

Lemma daysUntil_notADate c s : notADate s = true -> daysUntil c s = NaN.
Proof.
  unfold notADate, daysUntil. cbv zeta. rewrite length_map.
  destruct (List.length (split "-" s) =? 3)%nat; intros H;
    apply orb_true_iff in H as [H|H]; apply unreadable_NaN in H; rewrite H;
    cbn [num_sub]; now rewrite ?Date_ymd_NaN_month, ?Date_ymd_NaN.
Qed.

Lemma hyphenFree_notADate s : hyphenFree s = true -> notADate s = true.
Proof.
  intros H. unfold notADate. rewrite (split_hyphenFree s H).
  cbn [List.length Nat.eqb nth_error unreadable]. apply orb_true_r.
Qed.

Lemma broadcast_paced w : paced (snd (Broadcast.run w)).
Proof.
  pose proof (broadcast_cases w) as C.
  destruct (emailConfig w) as [[cfg|]|e] eqn:Hc; try (rewrite C; constructor).
  destruct (configComplete cfg) eqn:Hcfg; cbn [negb] in C; [|rewrite C; constructor].
  destruct (wives w) as [people|e] eqn:Hw; [|rewrite C; constructor].
  destruct (buildAlerts (w_clock w) 7 people) as [|a alerts] eqn:Eb;
    [rewrite C; constructor|].
  destruct (subscribers w) as [subs|e] eqn:Hs; [|rewrite C; constructor].
  destruct (broadcast_run w cfg people subs Hc Hcfg Hw ltac:(rewrite Eb; discriminate) Hs)
    as (n & tr & E & P & _).
  now rewrite E.
Qed.

(** *** The clock read at every call, on one local day

    While every reading of the clock is on the local day of [c0], in its
    zone, the builders and both revisions of [main] do with the readings
    what they do with the one clock [c0]. *)

Section OneDay.
Variable c0 : clock.
Variable cs : Timed.clocks.
Hypothesis Hday : Timed.onDayOf c0 cs.

Lemma reading_zone k : LocalTZA (Timed.reading cs k) = LocalTZA c0.
Proof. now destruct Hday. Qed.

Lemma reading_getFullYear k d :
  getFullYear (Timed.reading cs k) d = getFullYear c0 d.
Proof. unfold getFullYear, LocalTime. now rewrite reading_zone. Qed.

Lemma reading_Date_ymd k y m d :
  Date_ymd (Timed.reading cs k) y m d = Date_ymd c0 y m d.
Proof. unfold Date_ymd, UTC. now rewrite reading_zone. Qed.

Lemma reading_todayMidnight k :
  todayMidnight (Timed.reading cs k) = todayMidnight c0.
Proof.
  destruct Hday as [_ Hd]. specialize (Hd k).
  unfold todayMidnight, Date_now, setHours, UTC.
  rewrite reading_zone. cbn [now Timed.reading] in *. now rewrite Hd.
Qed.

Lemma reading_daysUntilFixed k month day :
  daysUntilFixed (Timed.reading cs k) month day = daysUntilFixed c0 month day.
Proof.
  unfold daysUntilFixed.
  now rewrite reading_todayMidnight, !reading_getFullYear, !reading_Date_ymd.
Qed.

Lemma reading_daysUntil k s :
  daysUntil (Timed.reading cs k) s = daysUntil c0 s.
Proof.
  unfold daysUntil.
  now rewrite reading_todayMidnight, !reading_getFullYear, !reading_Date_ymd.
Qed.

Lemma timed_fold {A : Type} maxDays (label : A -> string)
  (f : clock -> A -> number) (l : list A) :
  (forall k x, f (Timed.reading cs k) x = f c0 x) ->
  forall alerts k,
    fst (fold_left
           (fun st x =>
              let d := f (Timed.reading cs (snd st)) x in
              (pushIfDue maxDays (fst st) (label x) d, S (snd st)))
           l (alerts, k))
    = fold_left (fun alerts x => let d := f c0 x in pushIfDue maxDays alerts (label x) d)
        l alerts.
Proof.
  intros Hf. induction l as [|x l IH]; intros alerts k; [reflexivity|].
  cbn [fold_left fst snd]. cbv zeta. rewrite Hf. apply IH.
Qed.

Lemma timed_forGlobals maxDays alerts k :
  fst (Timed.forGlobals cs maxDays alerts k) = forGlobals c0 maxDays alerts.
Proof.
  unfold Timed.forGlobals, forGlobals.
  apply (timed_fold maxDays GlobalDate.name
           (fun c g => daysUntilFixed c (GlobalDate.month g) (GlobalDate.day g))).
  intros. apply reading_daysUntilFixed.
Qed.

Lemma timed_forDates maxDays p alerts k :
  fst (Timed.forDates cs maxDays p alerts k) = forDates c0 maxDays p alerts.
Proof.
  unfold Timed.forDates, forDates.
  apply (timed_fold maxDays Dated.label (fun c dt => daysUntil c (Dated.val dt))).
  intros. apply reading_daysUntil.
Qed.

Lemma timed_everyone maxDays people : forall st,
  fst (fold_left (fun st p => Timed.forDates cs maxDays p (fst st) (snd st)) people st)
  = fold_left (fun alerts p => forDates c0 maxDays p alerts) people (fst st).
Proof.
  induction people as [|p rest IH]; intros st; [reflexivity|].
  cbn [fold_left]. now rewrite IH, timed_forDates.
Qed.

Lemma timed_buildAlerts maxDays people k :
  fst (Timed.buildAlerts cs maxDays people k) = buildAlerts c0 maxDays people.
Proof.
  unfold Timed.buildAlerts, buildAlerts. cbv zeta. cbn [fst].
  now rewrite timed_everyone, timed_forGlobals.
Qed.

Lemma timed_forPeople maxDays people subscriberEmail : forall alerts k,
  fst (Timed.forPeople cs maxDays people subscriberEmail alerts k)
  = forPeople c0 maxDays people subscriberEmail alerts.
Proof.
  induction people as [|p rest IH]; intros alerts k; [reflexivity|].
  cbn [Timed.forPeople forPeople].
  destruct (skipsPerson p subscriberEmail) as [[|]|e]; [apply IH| |reflexivity].
  cbv zeta. now rewrite IH, timed_forDates.
Qed.

Lemma timed_buildAlertsForSubscriber maxDays people subscriberEmail k :
  fst (Timed.buildAlertsForSubscriber cs maxDays people subscriberEmail k)
  = buildAlertsForSubscriber c0 maxDays people subscriberEmail.
Proof.
  unfold Timed.buildAlertsForSubscriber, buildAlertsForSubscriber. cbv zeta.
  rewrite <- (timed_forGlobals maxDays [] k).
  rewrite <- (timed_forPeople maxDays people subscriberEmail
                (fst (Timed.forGlobals cs maxDays [] k))
                (snd (Timed.forGlobals cs maxDays [] k))).
  now destruct (Timed.forPeople _ _ _ _ _ _) as [[alerts|e] k'].
Qed.

Lemma timed_forSubscribers w cfg people subs : forall n tr k,
  Timed.forSubscribers cs w cfg people subs n tr k
  = forSubscribers (Timed.atClock c0 w) cfg people subs n tr.
Proof.
  induction subs as [|sub rest IH]; intros n tr k; [reflexivity|].
  cbn [Timed.forSubscribers forSubscribers].
  unfold bind at 3. unfold lift. cbn [w_clock Timed.atClock].
  rewrite <- (timed_buildAlertsForSubscriber 7 people (Some (Subscriber.email sub)) k).
  destruct (Timed.buildAlertsForSubscriber cs 7 people _ k) as [[alerts|e] k'];
    cbn [fst]; [|reflexivity].
  destruct (List.length alerts =? 0)%nat; [apply IH|].
  cbv zeta. unfold bind at 3.
  change (sendEmailViaREST (Timed.atClock c0 w)) with (sendEmailViaREST w).
  destruct (tryCatch _ _ tr) as [[n'|e] tr']; [apply IH | reflexivity].
Qed.

Lemma timed_run w : Timed.run cs w = run (Timed.atClock c0 w).
Proof.
  unfold Timed.run, run, Timed.main, main, bind, lift, ret.
  cbn [emailConfig wives subscribers Timed.atClock].
  destruct (emailConfig w) as [[cfg|]|e]; try reflexivity.
  destruct (_ || _ || _); [reflexivity|].
  destruct (wives w) as [people|e]; [|reflexivity].
  destruct (subscribers w) as [subs|e]; [|reflexivity].
  destruct (List.length subs =? 0)%nat; [reflexivity|].
  now rewrite timed_forSubscribers.
Qed.

Lemma timed_runBroadcast w : Timed.runBroadcast cs w = Broadcast.run (Timed.atClock c0 w).
Proof.
  unfold Timed.runBroadcast, Broadcast.run, Timed.mainBroadcast, Broadcast.main,
    bind, lift, ret.
  cbn [emailConfig wives subscribers w_clock Timed.atClock].
  destruct (emailConfig w) as [[cfg|]|e]; try reflexivity.
  destruct (_ || _ || _); [reflexivity|].
  destruct (wives w) as [people|e]; [|reflexivity].
  cbv zeta. rewrite timed_buildAlerts.
  reflexivity.
Qed.

End OneDay.

(** *** The further properties *)

(** X1.  What the builders list, for persons whose date strings are
    well formed and whose emails are ASCII.  An alert is in the list of
    [buildAlerts] exactly when its [days] is at most the threshold and it
    is a holiday of the table, or a dated entry of one of the persons,
    with that label and that number of days to go; for
    [buildAlertsForSubscriber], with an ASCII subscriber email, the
    person must moreover be visible to the subscriber. *)
Theorem builders_list_what_is_due c maxDays people a :
  Forall wellFormedPerson people ->
  Forall (fun p => asciiOwner p = true) people ->
  (In a (buildAlerts c maxDays people) <->
   Alert.days a <= maxDays /\
   ((exists g, In g GLOBAL_DATES /\ Alert.label a = GlobalDate.name g /\
               daysUntilFixed c (GlobalDate.month g) (GlobalDate.day g)
               = Num (Alert.days a)) \/
    (exists p dt, In p people /\ In dt (datesOf p) /\
                  Alert.label a = Dated.label dt /\
                  daysUntil c (Dated.val dt) = Num (Alert.days a)))) /\
  forall e, isAscii e = true -> exists alerts,
    buildAlertsForSubscriber c maxDays people (Some e) = Ok alerts /\
    (In a alerts <->
     Alert.days a <= maxDays /\
     ((exists g, In g GLOBAL_DATES /\ Alert.label a = GlobalDate.name g /\
                 daysUntilFixed c (GlobalDate.month g) (GlobalDate.day g)
                 = Num (Alert.days a)) \/
      (exists p dt, (In p people /\ visibleTo e p = true) /\ In dt (datesOf p) /\
                    Alert.label a = Dated.label dt /\
                    daysUntil c (Dated.val dt) = Num (Alert.days a)))).
Proof.
  intros _ _. split.
  - rewrite buildAlerts_eq. apply in_sorted_alerts.
  - intros e _. eexists. split; [apply buildAlertsForSubscriber_eq|].
    rewrite in_sorted_alerts. setoid_rewrite filter_In. reflexivity.
Qed.

Lemma builders_list_what_is_due_witness :
  (In (Alert.mk "Bea's Birthday" 4) (buildAlerts dec20 7 [ann; legacyBea]) <->
   Alert.days (Alert.mk "Bea's Birthday" 4) <= 7 /\
   ((exists g, In g GLOBAL_DATES /\
               Alert.label (Alert.mk "Bea's Birthday" 4) = GlobalDate.name g /\
               daysUntilFixed dec20 (GlobalDate.month g) (GlobalDate.day g)
               = Num (Alert.days (Alert.mk "Bea's Birthday" 4))) \/
    (exists p dt, In p [ann; legacyBea] /\ In dt (datesOf p) /\
                  Alert.label (Alert.mk "Bea's Birthday" 4) = Dated.label dt /\
                  daysUntil dec20 (Dated.val dt)
                  = Num (Alert.days (Alert.mk "Bea's Birthday" 4))))) /\
  forall e, isAscii e = true -> exists alerts,
    buildAlertsForSubscriber dec20 7 [ann; legacyBea] (Some e) = Ok alerts /\
    (In (Alert.mk "Bea's Birthday" 4) alerts <->
     Alert.days (Alert.mk "Bea's Birthday" 4) <= 7 /\
     ((exists g, In g GLOBAL_DATES /\
                 Alert.label (Alert.mk "Bea's Birthday" 4) = GlobalDate.name g /\
                 daysUntilFixed dec20 (GlobalDate.month g) (GlobalDate.day g)
                 = Num (Alert.days (Alert.mk "Bea's Birthday" 4))) \/
      (exists p dt, (In p [ann; legacyBea] /\ visibleTo e p = true) /\
                    In dt (datesOf p) /\
                    Alert.label (Alert.mk "Bea's Birthday" 4) = Dated.label dt /\
                    daysUntil dec20 (Dated.val dt)
                    = Num (Alert.days (Alert.mk "Bea's Birthday" 4))))).
Proof.
  apply (builders_list_what_is_due dec20 7 [ann; legacyBea]
           (Alert.mk "Bea's Birthday" 4)).
  - repeat constructor.
    + exists 12, 25. repeat split; try lia. now left.
    + exists 12, 24. repeat split; try lia. right. now exists "1990".
    + exists 6, 1. repeat split; try lia. now left.
    + exists 12, 20. repeat split; try lia. now left.
  - repeat constructor.
Defined.

(** X2.  Lowering the threshold cuts the list: the alerts for a threshold
    are those of any larger threshold whose [days] is at most the smaller
    one, in the same order. *)
Theorem threshold_cuts_the_list c maxDays maxDays' people :
  maxDays <= maxDays' ->
  buildAlerts c maxDays people
  = filter (dueWithin maxDays) (buildAlerts c maxDays' people) /\
  forall e,
    buildAlertsForSubscriber c maxDays people (Some e)
    = match buildAlertsForSubscriber c maxDays' people (Some e) with
      | Ok alerts => Ok (filter (dueWithin maxDays) alerts)
      | Throw err => Throw err
      end.
Proof.
  intros H. split.
  - rewrite !buildAlerts_eq, filter_sort. f_equal. now apply inserted_lower.
  - intros e. rewrite !buildAlertsForSubscriber_eq, filter_sort. do 2 f_equal.
    now apply inserted_lower.
Qed.

Lemma threshold_cuts_the_list_witness :
  buildAlerts dec20 3 [ann; legacyBea]
  = filter (dueWithin 3) (buildAlerts dec20 7 [ann; legacyBea]) /\
  forall e,
    buildAlertsForSubscriber dec20 3 [ann; legacyBea] (Some e)
    = match buildAlertsForSubscriber dec20 7 [ann; legacyBea] (Some e) with
      | Ok alerts => Ok (filter (dueWithin 3) alerts)
      | Throw err => Throw err
      end.
Proof. apply (threshold_cuts_the_list dec20 3 7 [ann; legacyBea]). lia. Defined.

(** X3.  The next occurrence is never more than 365 days away: for a
    month from 1 to 12 and a day from 1 to 31, on a clock the job can
    meet, [daysUntilFixed] and [daysUntil] (on the two-digit "MM-DD"
    string) return the same integer between 0 and 365. *)
Theorem next_occurrence_within_a_year c (month day : Z) :
  clock_ok c -> 1 <= month <= 12 -> 1 <= day <= 31 ->
  exists n,
    daysUntilFixed c month day = Num n /\
    daysUntil c (pad2 month ^^ "-" ^^ pad2 day) = Num n /\
    0 <= n <= 365.
Proof.
  intros Hc Hm Hd.
  destruct (daysUntilFixed_value c Hc month day Hm Hd) as [V _].
  exists (nextOccurrence c month day - today c).
  rewrite daysUntil_fixed by assumption.
  repeat split; try assumption; now apply nextOccurrence_within_year.
Qed.

Lemma next_occurrence_within_a_year_witness :
  exists n,
    daysUntilFixed dec20 12 19 = Num n /\
    daysUntil dec20 (pad2 12 ^^ "-" ^^ pad2 19) = Num n /\
    0 <= n <= 365.
Proof.
  apply (next_occurrence_within_a_year dec20 12 19);
    [ unfold clock_ok, LocalTime, UTC, dec20, utc, msPerDay; cbn [now LocalTZA];
      repeat split; intros; lia
    | lia | lia ].
Defined.

(** X4.  Dates that are not dates are dropped without an error: when the
    month or the day that [daysUntil] reads from a string is missing or
    not a number the result is [NaN], and a person all of whose date
    strings are such adds no alert, whatever the threshold. *)
Theorem malformed_dates_are_dropped c maxDays p alerts :
  Forall (fun dt => notADate (Dated.val dt) = true) (datesOf p) ->
  Forall (fun dt => daysUntil c (Dated.val dt) = NaN) (datesOf p) /\
  forDates c maxDays p alerts = alerts /\
  buildAlerts c maxDays [p] = buildAlerts c maxDays [].
Proof.
  intros H.
  assert (N : Forall (fun dt => daysUntil c (Dated.val dt) = NaN) (datesOf p)).
  { eapply Forall_impl; [|exact H]. intros dt. apply daysUntil_notADate. }
  assert (E : personAlerts c maxDays p = []).
  { unfold personAlerts. induction N as [|dt l Hdt _ IH]; [reflexivity|].
    cbn [flat_map]. rewrite Hdt. cbn [dueAlert app]. apply IH.
    now inversion H. }
  split; [exact N|]. split.
  - now rewrite forDates_personAlerts, E, app_nil_r.
  - rewrite !buildAlerts_eq. cbn [flat_map]. now rewrite E.
Qed.

Lemma malformed_dates_are_dropped_witness :
  Forall (fun dt => daysUntil dec20 (Dated.val dt) = NaN) (datesOf undated) /\
  forDates dec20 7 undated [] = [] /\
  buildAlerts dec20 7 [undated] = buildAlerts dec20 7 [].
Proof.
  apply (malformed_dates_are_dropped dec20 7 undated []).
  repeat constructor.
Defined.

(** X5.  Well-formed data gives days in range: on a clock the job can
    meet, when every date string of every person is "MM-DD" or
    "YYYY-MM-DD" with month 1 to 12 and day 1 to 31, every alert of both
    builders has [days] from 0 to 365 and at most the threshold, and its
    line is worded as for a non-negative number of days. *)
Theorem well_formed_data_gives_days_in_range c maxDays people :
  clock_ok c -> Forall wellFormedPerson people ->
  (Forall (fun a => 0 <= Alert.days a <= 365 /\ Alert.days a <= maxDays)
     (buildAlerts c maxDays people) /\
   map alertLine (buildAlerts c maxDays people)
   = map specLine (buildAlerts c maxDays people)) /\
  forall e, exists alerts,
    buildAlertsForSubscriber c maxDays people (Some e) = Ok alerts /\
    Forall (fun a => 0 <= Alert.days a <= 365 /\ Alert.days a <= maxDays) alerts /\
    map alertLine alerts = map specLine alerts.
Proof.
  intros Hc Hw.
  assert (L : forall alerts,
            Forall (fun a => 0 <= Alert.days a <= 365 /\ Alert.days a <= maxDays)
              alerts ->
            map alertLine alerts = map specLine alerts).
  { intros alerts H. apply map_ext_in. intros a Ha.
    rewrite Forall_forall in H. apply alertLine_specLine. now apply H. }
  split.
  - rewrite buildAlerts_eq.
    pose proof (alerts_in_range c maxDays people Hc Hw) as R. auto.
  - intros e. eexists. split; [apply buildAlertsForSubscriber_eq|].
    pose proof (alerts_in_range c maxDays (filter (visibleTo e) people) Hc
                  (Forall_filter_keep _ _ _ Hw)) as R.
    auto.
Qed.

Lemma well_formed_data_gives_days_in_range_witness :
  (Forall (fun a => 0 <= Alert.days a <= 365 /\ Alert.days a <= 7)
     (buildAlerts dec20 7 [ann; legacyBea]) /\
   map alertLine (buildAlerts dec20 7 [ann; legacyBea])
   = map specLine (buildAlerts dec20 7 [ann; legacyBea])) /\
  forall e, exists alerts,
    buildAlertsForSubscriber dec20 7 [ann; legacyBea] (Some e) = Ok alerts /\
    Forall (fun a => 0 <= Alert.days a <= 365 /\ Alert.days a <= 7) alerts /\
    map alertLine alerts = map specLine alerts.
Proof.
  apply (well_formed_data_gives_days_in_range dec20 7 [ann; legacyBea]).
  - unfold clock_ok, LocalTime, UTC, dec20, utc, msPerDay; cbn [now LocalTZA];
      repeat split; intros; lia.
  - repeat constructor.
    + exists 12, 25. repeat split; try lia. now left.
    + exists 12, 24. repeat split; try lia. right. now exists "1990".
    + exists 6, 1. repeat split; try lia. now left.
    + exists 12, 20. repeat split; try lia. now left.
Defined.

(** X6.  One call of [sendEmailViaREST] makes exactly one request, to the
    given address with the given text and a sender name that is never
    empty, and no delay; it returns normally exactly when the provider
    answered with a status from 200 to 299, and on another status it
    throws an error whose message carries the status and the body. *)
Theorem one_send w toEmail text cfg tr :
  exists req,
    let res := provider w tr req in
    snd (sendEmailViaREST w toEmail text cfg tr) = tr ++ [Fetch req res] /\
    Payload.to_email req = toEmail /\ Payload.event_list req = text /\
    Payload.accessToken req = EMAILJS_PRIVATE_KEY w /\
    Payload.from_name req <> "" /\
    (fst (sendEmailViaREST w toEmail text cfg tr) = Ok tt <-> fetchFailed res = false) /\
    forall status body,
      res = Responded status body -> response_ok status = false ->
      fst (sendEmailViaREST w toEmail text cfg tr)
      = Throw (Error ("EmailJS " ^^ toString status ^^ ": " ^^ body)).
Proof.
  exists (broadcastPayload w cfg text (Subscriber.mk "" toEmail)). cbv zeta.
  rewrite (sendEmailViaREST_run w toEmail text cfg (Subscriber.mk "" toEmail) tr eq_refl).
  cbv zeta. cbn [fst snd].
  repeat split; try reflexivity.
  - apply from_name_nonempty.
  - destruct (provider w tr _) as [status body|e]; cbn [fetchFailed];
      [destruct (response_ok status)|]; cbn [negb]; intros; congruence.
  - destruct (provider w tr _) as [status body|e]; cbn [fetchFailed];
      [destruct (response_ok status)|]; cbn [negb]; intros; congruence.
  - intros status body -> ->. reflexivity.
Qed.

(** X7.  Where the delays are.  In every run of either revision each
    send that succeeded is followed at once by one delay and there is no
    other delay: the delays are as many as the successful sends, and each
    is of 1100 ms. *)
Theorem delay_follows_success w :
  (paced (snd (run w)) /\
   sleepsOf (snd (run w)) = goodSends (snd (run w)) /\
   forall ms, In (Sleep ms) (snd (run w)) -> ms = 1100) /\
  (paced (snd (Broadcast.run w)) /\
   sleepsOf (snd (Broadcast.run w)) = goodSends (snd (Broadcast.run w)) /\
   forall ms, In (Sleep ms) (snd (Broadcast.run w)) -> ms = 1100).
Proof.
  pose proof (run_paced w) as P. pose proof (broadcast_paced w) as Q.
  repeat split; try assumption;
    try (now apply paced_sleeps); now apply paced_delays.
Qed.

(** X8.  No empty digest and no stranger: every request a run sends goes
    to the address of a subscriber read from the store, carries the
    identifiers of the configuration, and has a text that is not
    empty. *)
Theorem no_empty_digest w req :
  In req (requestsOf (snd (run w))) ->
  Payload.event_list req <> "" /\
  (exists subs sub,
     subscribers w = Ok subs /\ In sub subs /\
     Payload.to_email req = Subscriber.email sub) /\
  exists cfg,
    emailConfig w = Ok (Some cfg) /\
    Payload.service_id req = EmailConfig.serviceId cfg /\
    Payload.template_id req = EmailConfig.templateId cfg /\
    Payload.user_id req = EmailConfig.pubKey cfg.
Proof.
  intros Hin.
  destruct (run_requests w req Hin)
    as (cfg & people & subs & sub & Hc & _ & _ & Hs & Hsub & Ha & ->).
  split; [|split].
  - cbn [payloadFor Payload.event_list].
    apply formatAlertText_nonempty. now apply hasAlerts_nonempty.
  - now exists subs, sub.
  - now exists cfg.
Qed.

Lemma no_empty_digest_witness :
  Payload.event_list
    (payloadFor sampleWorld sampleConfig [ann; legacyBea]
       (Subscriber.mk "Other" "other@x.com")) <> "" /\
  (exists subs sub,
     subscribers sampleWorld = Ok subs /\ In sub subs /\
     Payload.to_email
       (payloadFor sampleWorld sampleConfig [ann; legacyBea]
          (Subscriber.mk "Other" "other@x.com")) = Subscriber.email sub) /\
  exists cfg,
    emailConfig sampleWorld = Ok (Some cfg) /\
    Payload.service_id
      (payloadFor sampleWorld sampleConfig [ann; legacyBea]
         (Subscriber.mk "Other" "other@x.com")) = EmailConfig.serviceId cfg /\
    Payload.template_id
      (payloadFor sampleWorld sampleConfig [ann; legacyBea]
         (Subscriber.mk "Other" "other@x.com")) = EmailConfig.templateId cfg /\
    Payload.user_id
      (payloadFor sampleWorld sampleConfig [ann; legacyBea]
         (Subscriber.mk "Other" "other@x.com")) = EmailConfig.pubKey cfg.
Proof.
  apply (no_empty_digest sampleWorld
           (payloadFor sampleWorld sampleConfig [ann; legacyBea]
              (Subscriber.mk "Other" "other@x.com"))).
  vm_compute. right. left. reflexivity.
Defined.

(** X9.  The earlier revision sends to everyone: when the configuration
    is complete, some alert is due and the subscribers are read, every
    subscriber gets one request, in order, all with the same text (the
    formatted alerts of [buildAlerts], whoever owns the persons); the two
    counters add up to the number of subscribers, and the exit status is
    1 exactly when a send failed. *)
Theorem broadcast_sends_to_everyone w cfg people subs :
  emailConfig w = Ok (Some cfg) -> configComplete cfg = true ->
  wives w = Ok people -> buildAlerts (w_clock w) 7 people <> [] ->
  subscribers w = Ok subs ->
  requestsOf (snd (Broadcast.run w))
  = map (broadcastPayload w cfg (formatAlertText (buildAlerts (w_clock w) 7 people)))
      subs /\
  (exists n,
     Broadcast.forSubscribers w cfg
       (formatAlertText (buildAlerts (w_clock w) 7 people)) subs
       (Broadcast.Counters 0 0) [] = (Ok n, snd (Broadcast.run w)) /\
     Broadcast.ok n + Broadcast.fail n = Z.of_nat (List.length subs) /\
     Broadcast.fail n = failedSends (snd (Broadcast.run w))) /\
  Broadcast.exitStatus w
  = (if 0 <? failedSends (snd (Broadcast.run w)) then 1 else 0).
Proof.
  intros Hc Hcfg Hw Ha Hs.
  destruct (broadcast_run w cfg people subs Hc Hcfg Hw Ha Hs)
    as (n & tr & E & P & R & Hok & Hfail).
  destruct (broadcast_loop w cfg
              (formatAlertText (buildAlerts (w_clock w) 7 people)) subs
              (Broadcast.Counters 0 0) [])
    as (n' & tr' & E' & _ & R' & Hok' & Hfail').
  cbn [app Broadcast.ok Broadcast.fail] in E', Hok', Hfail'.
  pose proof (broadcast_cases w) as C.
  rewrite Hc, Hcfg, Hw, Hs in C. cbn [negb] in C. cbv zeta in C.
  assert (T : snd (Broadcast.run w) = tr'
              /\ fst (Broadcast.run w)
                 = Ok (if Broadcast.fail n' >? 0 then Exited 1 else Returned)).
  { rewrite C.
    destruct (buildAlerts (w_clock w) 7 people) as [|a alerts]; [congruence|].
    cbn [List.length Nat.eqb]. destruct subs as [|sub rest].
    - cbn in E'. injection E' as <- <-. cbn. auto.
    - cbn [List.length Nat.eqb]. rewrite E'. cbn. auto. }
  destruct T as [T1 T2].
  pose proof (sends_counted tr') as Hcount. rewrite R', length_map in Hcount.
  split; [now rewrite T1|]. split.
  - exists n'. rewrite T1. repeat split; [exact E' | lia | lia].
  - unfold Broadcast.exitStatus. rewrite T2, T1.
    destruct (Z.gtb_spec (Broadcast.fail n') 0), (Z.ltb_spec 0 (failedSends tr'));
      reflexivity || lia.
Qed.

Lemma broadcast_sends_to_everyone_witness :
  requestsOf (snd (Broadcast.run sampleWorld))
  = map (broadcastPayload sampleWorld sampleConfig
           (formatAlertText (buildAlerts (w_clock sampleWorld) 7 [ann; legacyBea])))
      sampleSubscribers /\
  (exists n,
     Broadcast.forSubscribers sampleWorld sampleConfig
       (formatAlertText (buildAlerts (w_clock sampleWorld) 7 [ann; legacyBea]))
       sampleSubscribers (Broadcast.Counters 0 0) []
     = (Ok n, snd (Broadcast.run sampleWorld)) /\
     Broadcast.ok n + Broadcast.fail n = Z.of_nat (List.length sampleSubscribers) /\
     Broadcast.fail n = failedSends (snd (Broadcast.run sampleWorld))) /\
  Broadcast.exitStatus sampleWorld
  = (if 0 <? failedSends (snd (Broadcast.run sampleWorld)) then 1 else 0).
Proof.
  apply (broadcast_sends_to_everyone sampleWorld sampleConfig [ann; legacyBea]
           sampleSubscribers); try reflexivity.
  vm_compute. discriminate.
Defined.

(** X10.  Where the revisions differ when nothing is due.  The earlier
    one returns before it reads the subscribers: with no alert it ends
    with status 0 and an empty trace even when that read would fail.  The
    later one reads the subscribers first, so the same failure ends it
    with status 1. *)
Theorem broadcast_returns_before_reading_subscribers w cfg people e :
  emailConfig w = Ok (Some cfg) -> configComplete cfg = true ->
  wives w = Ok people -> buildAlerts (w_clock w) 7 people = [] ->
  subscribers w = Throw e ->
  (Broadcast.exitStatus w = 0 /\ Broadcast.run w = (Ok Returned, [])) /\
  (exitStatus w = 1 /\ run w = (Throw e, [])).
Proof.
  intros Hc Hcfg Hw Ha Hs.
  assert (B : Broadcast.run w = (Ok Returned, [])).
  { rewrite broadcast_cases, Hc, Hcfg, Hw. cbn [negb]. cbv zeta. now rewrite Ha. }
  assert (R : run w = (Throw e, [])).
  { now rewrite run_cases, Hc, Hcfg, Hw, Hs. }
  unfold Broadcast.exitStatus, exitStatus. rewrite B, R. auto.
Qed.

Lemma broadcast_returns_before_reading_subscribers_witness :
  (Broadcast.exitStatus
     (World (Clock 1780000000000 utc) None (Ok (Some sampleConfig)) (Ok [ann])
        (Throw (Error "UNAVAILABLE")) (failingFor "h@x.com")) = 0 /\
   Broadcast.run
     (World (Clock 1780000000000 utc) None (Ok (Some sampleConfig)) (Ok [ann])
        (Throw (Error "UNAVAILABLE")) (failingFor "h@x.com"))
   = (Ok Returned, [])) /\
  (exitStatus
     (World (Clock 1780000000000 utc) None (Ok (Some sampleConfig)) (Ok [ann])
        (Throw (Error "UNAVAILABLE")) (failingFor "h@x.com")) = 1 /\
   run
     (World (Clock 1780000000000 utc) None (Ok (Some sampleConfig)) (Ok [ann])
        (Throw (Error "UNAVAILABLE")) (failingFor "h@x.com"))
   = (Throw (Error "UNAVAILABLE"), [])).
Proof.
  apply (broadcast_returns_before_reading_subscribers
           (World (Clock 1780000000000 utc) None (Ok (Some sampleConfig)) (Ok [ann])
              (Throw (Error "UNAVAILABLE")) (failingFor "h@x.com"))
           sampleConfig [ann] (Error "UNAVAILABLE")); reflexivity.
Defined.

(** X11.  On legacy data the two revisions are one, within a day: when
    no person read from the store has a non-empty [ownerEmail], the read
    of the subscribers does not fail, and every reading of the clock in
    either run falls on the same local day of the same zone, the earlier
    and the later revision end the same way after the same requests and
    delays. *)
Theorem revisions_agree_on_legacy_data c0 cs1 cs2 w :
  (forall people, wives w = Ok people ->
                  Forall (fun p => hasOwner p = false) people) ->
  (forall e, subscribers w <> Throw e) ->
  Timed.onDayOf c0 cs1 -> Timed.onDayOf c0 cs2 ->
  Timed.runBroadcast cs1 w = Timed.run cs2 w.
Proof.
  intros Hleg Hsubs H1 H2.
  rewrite (timed_runBroadcast c0 cs1 H1), (timed_run c0 cs2 H2).
  apply revisions_agree; assumption.
Qed.

Lemma revisions_agree_on_legacy_data_witness :
  Timed.runBroadcast stoppedClock legacyWorld = Timed.run runningClock legacyWorld.
Proof.
  apply (revisions_agree_on_legacy_data dec20 stoppedClock runningClock legacyWorld).
  - intros people E. injection E as <-. repeat constructor.
  - intros e E. discriminate E.
  - split; [reflexivity|]. intros k. reflexivity.
  - split; [reflexivity|]. intros k.
    unfold Timed.reading, runningClock, dec20, LocalTime, utc, Day, msPerDay.
    cbn [now LocalTZA Timed.instantAt Timed.zone].
    assert (B : 0 <= Z.min (Z.of_nat k) 1800000 <= 1800000) by lia.
    revert B. generalize (Z.min (Z.of_nat k) 1800000). intros z B.
    Z.div_mod_to_equations. lia.
Defined.

(** Across midnight they differ: the later revision, reading the clock
    after the first send, finds the first date no longer due today. *)
Example revisions_differ_across_midnight :
  let cs := Timed.Clocks utc
              (fun k => if Nat.ltb k 9 then 1797811199000 else 1797811201000) in
  map Payload.event_list (requestsOf (snd (Timed.runBroadcast cs legacyWorld)))
  <> map Payload.event_list (requestsOf (snd (Timed.run cs legacyWorld))).
Proof. vm_compute. discriminate. Qed.

(** X12.  One line per alert: when no label holds a newline, splitting
    the text of a non-empty list of alerts at the newlines gives back the
    lines of the alerts, one each and in order. *)
Theorem digest_has_one_line_per_alert alerts :
  alerts <> [] ->
  Forall (fun a => lacks (ascii_of_nat 10) (Alert.label a) = true) alerts ->
  split (ascii_of_nat 10) (formatAlertText alerts) = map alertLine alerts /\
  List.length (split (ascii_of_nat 10) (formatAlertText alerts)) = List.length alerts.
Proof.
  intros Hne H. pose proof (formatAlertText_split alerts Hne H) as E.
  split; [exact E|]. now rewrite E, length_map.
Qed.

Lemma digest_has_one_line_per_alert_witness :
  split (ascii_of_nat 10) (formatAlertText (buildAlerts dec20 7 [ann; legacyBea]))
  = map alertLine (buildAlerts dec20 7 [ann; legacyBea]) /\
  List.length
    (split (ascii_of_nat 10) (formatAlertText (buildAlerts dec20 7 [ann; legacyBea])))
  = List.length (buildAlerts dec20 7 [ann; legacyBea]).
Proof.
  apply (digest_has_one_line_per_alert (buildAlerts dec20 7 [ann; legacyBea])).
  - vm_compute. discriminate.
  - vm_compute. repeat constructor.
Defined.

(** X13.  [todayMidnight] keeps the date: on a clock the job can meet it
    has the year, month and day of the instant the script read, and
    setting its hours to zero again changes nothing. *)
Theorem midnight_keeps_the_date c :
  clock_ok c ->
  getFullYear c (todayMidnight c) = getFullYear c (Date_now c) /\
  getMonth c (todayMidnight c) = getMonth c (Date_now c) /\
  getDate c (todayMidnight c) = getDate c (Date_now c) /\
  setHours c (todayMidnight c) 0 0 0 0 = todayMidnight c.
Proof.
  intros Hc. destruct (todayMidnight_same_date c Hc) as (Ey & Em & Ed).
  repeat split; try assumption. now apply todayMidnight_again.
Qed.

Lemma midnight_keeps_the_date_witness :
  getFullYear march10 (todayMidnight march10) = getFullYear march10 (Date_now march10) /\
  getMonth march10 (todayMidnight march10) = getMonth march10 (Date_now march10) /\
  getDate march10 (todayMidnight march10) = getDate march10 (Date_now march10) /\
  setHours march10 (todayMidnight march10) 0 0 0 0 = todayMidnight march10.
Proof.
  apply (midnight_keeps_the_date march10).
  unfold clock_ok, LocalTime, UTC, march10, springForward, msPerDay.
  cbn [now LocalTZA].
  repeat split; intros;
    try match goal with b : bool |- _ => destruct b end;
    repeat match goal with
           | |- context [if ?a <? ?b then _ else _] => destruct (Z.ltb_spec a b)
           | H : context [if ?a <? ?b then _ else _] |- _ => destruct (Z.ltb_spec a b)
           end; lia.
Defined.
